(** * The in-memory stock store of the bloxfruits API route

    A shallow embedding of the route handlers GET / POST / PUT / DELETE /
    PATCH, of [authorize] and of [cleanupExpiredData], together with the
    properties of the store that its specification states.

    Modelling conventions.
    - The module-level [stocksData] (a JavaScript [Map]) is threaded
      explicitly: a handler is a function from the store before the request
      to a response and the store after it.  A [Map] iterates in insertion
      order and [set] on a present key keeps the key's position, so the store
      is an association list in insertion order.
    - A request body is whatever [request.json()] produced: an arbitrary
      JSON value.  TypeScript's annotations are erased at run time, so the
      [name], [price] and [quantity] of a stored entry hold JavaScript
      values, not only strings and numbers.
    - JSON numbers are integers ([Z]): the handlers test a number by
      [typeof] and by truthiness and otherwise only copy it.  Time stamps
      are the integer milliseconds of [Date.now()], passed to a handler as
      arguments, one per reading of the clock, in program order.
    - A string is a sequence of code units below 256 (Latin-1);
      [toLowerCase] and the class [\s] are those of that range.
    - A [TypeError] raised inside a handler's [try] block is an explicit
      failure value; the mutations done before it stay in the store. *)

From Stdlib Require Import ZArith List String Ascii Bool Lia DecimalString.
Import ListNotations.

Local Open Scope string_scope.
Local Open Scope Z_scope.

(** ** JavaScript values *)

Module Js.

#[local] Set Warnings "-register-all".

Inductive JsValue : Type :=
| JUndefined
| JNull
| JBool (b : bool)
| JNum (n : Z)
| JStr (s : string)
| JArr (items : list JsValue)
| JObj (fields : list (string * JsValue)).

(** ToBoolean. *)
Definition truthy (v : JsValue) : bool :=
  match v with
  | JUndefined | JNull => false
  | JBool b => b
  | JNum n => negb (n =? 0)
  | JStr s => negb (s =? "")%string
  | JArr _ | JObj _ => true
  end.

(** [typeof v === "number"]. *)
Definition is_number (v : JsValue) : bool :=
  match v with JNum _ => true | _ => false end.

(** [v === null || v === undefined], the test behind [??]. *)
Definition nullish (v : JsValue) : bool :=
  match v with JUndefined | JNull => true | _ => false end.

(** [a ?? b]. *)
Definition coalesce (a b : JsValue) : JsValue := if nullish a then b else a.

(** [a || b]. *)
Definition or_else (a b : JsValue) : JsValue := if truthy a then a else b.

(** Decimal rendering of an integer number: what JavaScript prints for a
    safe integer (below 2^53 in absolute value), such as a reading of
    [Date.now()]. *)
Definition num_to_string (n : Z) : string := NilZero.string_of_int (Z.to_int n).

(** ToString, as a template literal or [String.prototype.includes] applies
    it.  An array is joined with commas, its [null] and [undefined] elements
    rendered empty. *)
Fixpoint to_string (v : JsValue) : string :=
  match v with
  | JUndefined => "undefined"
  | JNull => "null"
  | JBool true => "true"
  | JBool false => "false"
  | JNum n => num_to_string n
  | JStr s => s
  | JArr items =>
      (fix join (l : list JsValue) : string :=
         match l with
         | [] => ""
         | x :: rest =>
             let sx := match x with
                       | JUndefined | JNull => ""
                       | _ => to_string x
                       end in
             match rest with
             | [] => sx
             | _ :: _ => sx ++ "," ++ join rest
             end
         end) items
  | JObj _ => "[object Object]"
  end.

Fixpoint lookup_field (key : string) (fields : list (string * JsValue)) : JsValue :=
  match fields with
  | [] => JUndefined
  | (k, v) :: rest => if (k =? key)%string then v else lookup_field key rest
  end.

(** [v.key] for the property names the handlers read ([sessionId],
    [normalStock], [mirageStock], [name], [price], [quantity], [id],
    [reason]): none of them is inherited by a primitive or an array, and
    reading a property of [null] or [undefined] raises a [TypeError]
    ([None]). *)
Definition get_prop (v : JsValue) (key : string) : option JsValue :=
  match v with
  | JUndefined | JNull => None
  | JObj fields => Some (lookup_field key fields)
  | _ => Some JUndefined
  end.

(** *** Strings *)

Definition is_space (c : ascii) : bool :=
  let n := nat_of_ascii c in
  (((9 <=? n) && (n <=? 13)) || (n =? 32) || (n =? 160))%nat.

Definition lower_unit (c : ascii) : ascii :=
  let n := nat_of_ascii c in
  if (((65 <=? n) && (n <=? 90))
      || ((192 <=? n) && (n <=? 222) && negb (n =? 215)))%nat
  then ascii_of_nat (n + 32)
  else c.

(** [s.toLowerCase()]. *)
Fixpoint toLowerCase (s : string) : string :=
  match s with
  | EmptyString => EmptyString
  | String c rest => String (lower_unit c) (toLowerCase rest)
  end.

(** [s.replace(/\s+/g, "-")]: every maximal run of white space becomes one
    dash. *)
Fixpoint replace_spaces (s : string) : string :=
  match s with
  | EmptyString => EmptyString
  | String c rest =>
      if is_space c then
        match rest with
        | EmptyString => "-"
        | String c' _ =>
            if is_space c' then replace_spaces rest
            else String "-" (replace_spaces rest)
        end
      else String c (replace_spaces rest)
  end.

(** [s.slice(-n)]: the last [n] code units, the whole string when it is
    shorter. *)
Definition slice_last (n : nat) (s : string) : string :=
  substring (String.length s - n) n s.

(** [s.includes(sub)]. *)
Fixpoint includes (s sub : string) : bool :=
  prefix sub s
  || match s with
     | EmptyString => false
     | String _ rest => includes rest sub
     end.

(** [v.toLowerCase()] on an arbitrary value: only a string has the method,
    calling it on anything else raises a [TypeError]. *)
Definition call_toLowerCase (v : JsValue) : option string :=
  match v with
  | JStr s => Some (toLowerCase s)
  | _ => None
  end.

(** [String(v.slice(-8))] on an arbitrary value: strings and arrays have a
    [slice] method; on any other value the call raises a [TypeError]. *)
Definition call_slice_last8 (v : JsValue) : option string :=
  match v with
  | JStr s => Some (slice_last 8 s)
  | JArr items => Some (to_string (JArr (skipn (List.length items - 8) items)))
  | _ => None
  end.

End Js.
Export Js.

(** ** The store *)

Record StockData : Type := mkStock {
  id : string;
  name : JsValue;
  price : JsValue;
  quantity : JsValue;
  lastUpdated : Z;
  createdAt : Z
}.

Definition CLEANUP_INTERVAL : Z := 5 * 60 * 1000.
Definition DATA_EXPIRY : Z := 10 * 60 * 1000.

Module JsMap.

Definition t : Type := list (string * StockData).

Definition empty : t := [].

Fixpoint get (k : string) (m : t) : option StockData :=
  match m with
  | [] => None
  | (k', v) :: rest => if (k' =? k)%string then Some v else get k rest
  end.

(** [m.set(k, v)]: a present key keeps its position, a new key goes last. *)
Fixpoint set (k : string) (v : StockData) (m : t) : t :=
  match m with
  | [] => [(k, v)]
  | (k', v') :: rest =>
      if (k' =? k)%string then (k, v) :: rest else (k', v') :: set k v rest
  end.

Definition delete (k : string) (m : t) : t :=
  filter (fun kv => negb (fst kv =? k)%string) m.

Definition keys (m : t) : list string := map fst m.
Definition values (m : t) : list StockData := map snd m.

Fixpoint mem (k : string) (l : list string) : bool :=
  match l with
  | [] => false
  | k' :: rest => (k' =? k)%string || mem k rest
  end.

Fixpoint nodup_keys (l : list string) : bool :=
  match l with
  | [] => true
  | k :: rest => negb (mem k rest) && nodup_keys rest
  end.

(** A [Map] holds each key once. *)
Definition wf (m : t) : bool := nodup_keys (keys m).

End JsMap.

Definition Store : Type := JsMap.t.

(** ** The sweep *)

Definition expired (now : Z) (data : StockData) : bool :=
  now - lastUpdated data >? DATA_EXPIRY.

(** The body of the loop of [cleanupExpiredData] for the entry [kv]. *)
Definition cleanup_step (now : Z) (st : Store) (kv : string * StockData) : Store :=
  if expired now (snd kv) then JsMap.delete (fst kv) st else st.

(** [cleanupExpiredData()], [now] being its reading of the clock.  The loop
    deletes no key other than the one it is visiting, so the live iteration
    of the [Map] visits the entries present at the start. *)
Definition cleanupExpiredData (now : Z) (st : Store) : Store :=
  fold_left (cleanup_step now) st st.

(** Some entry of [l] under the key of [kv] has expired at [now]: what the
    loop of the sweep over [l] removes. *)
Definition swept_by (now : Z) (l : list (string * StockData))
                    (kv : string * StockData) : bool :=
  existsb (fun kv' => (fst kv' =? fst kv)%string && expired now (snd kv')) l.

(** ** Requests and responses *)

(** What a handler reads of a [NextRequest]: the query parameters [id] and
    [key], the [Authorization] header (each [None] when absent), and the
    result of [request.json()] ([None] when it rejects: no body, or not
    JSON). *)
Record Request : Type := mkRequest {
  query_id : option string;
  query_key : option string;
  authorization : option string;
  json_body : option JsValue
}.

(** The bodies passed to [NextResponse.json].  [success: true] is implied by
    every constructor but [PError]; optional members are [None] when the
    object spread adds nothing; ISO dates are kept as milliseconds. *)
Inductive Payload : Type :=
| PError (error message : string) (hint : option string)
| PStock (data : StockData) (access : option string)
| PAllStocks (data : list StockData) (count : nat) (lastCleanup : Z)
             (access note : option string)
| PBatch (message : string)
         (sessionId playerName serverId normalCount mirageCount totalFruits : JsValue)
         (timestamp : Z)
| PCreated (message : string) (data : StockData)
| PUpdated (message : string) (data : StockData)
| PSessionCleaned (message : string) (deletedCount : nat) (reason : JsValue)
| PDeleted (message : string) (deletedData : StockData)
| PPinged (message : string) (pingedAt : Z).

Record Response : Type := mkResponse {
  status : Z;
  payload : Payload
}.

(** The entries a response carries. *)
Definition response_entries (r : Response) : list StockData :=
  match payload r with
  | PStock d _ => [d]
  | PAllStocks ds _ _ _ _ => ds
  | PCreated _ d | PUpdated _ d | PDeleted _ d => [d]
  | _ => []
  end.

(** The access-mode marker of a response. *)
Definition response_access (r : Response) : option string :=
  match payload r with
  | PStock _ a => a
  | PAllStocks _ _ _ a _ => a
  | _ => None
  end.

(** ** Authorization *)

Definition validKey : string := "GAMERSBERG".

Definition is_status (keyParam : option string) : bool :=
  match keyParam with
  | Some k => (k =? "status")%string
  | None => false
  end.

Definition unauthorized : Response :=
  {| status := 401;
     payload := PError "Unauthorized" "Invalid or missing Authorization header"
                       (Some "For public access, use ?key=status (GET requests only)") |}.

(** [authorize(request, method)]: [None] lets the request through. *)
Definition authorize (request : Request) (method : string) : option Response :=
  if (method =? "GET")%string && is_status (query_key request) then None
  else
    match authorization request with
    | None => Some unauthorized
    | Some authHeader =>
        if (authHeader =? "")%string || negb (authHeader =? validKey)%string
        then Some unauthorized
        else None
    end.

(** ** Code that may throw while it mutates the store *)

Module Try.

Definition M (A : Type) : Type := Store -> option A * Store.

Definition ret {A} (a : A) : M A := fun st => (Some a, st).

Definition bind {A B} (c : M A) (k : A -> M B) : M B :=
  fun st =>
    match c st with
    | (Some a, st') => k a st'
    | (None, st') => (None, st')
    end.

(** A value that may be a thrown [TypeError]. *)
Definition lift {A} (o : option A) : M A := fun st => (o, st).

Definition entries : M (list (string * StockData)) := fun st => (Some st, st).

Definition set (k : string) (v : StockData) : M unit :=
  fun st => (Some tt, JsMap.set k v st).

Definition delete (k : string) : M unit :=
  fun st => (Some tt, JsMap.delete k st).

(** [for (const x of l) body(x)]. *)
Fixpoint for_each {A} (body : A -> M unit) (l : list A) : M unit :=
  match l with
  | [] => ret tt
  | x :: rest => bind (body x) (fun _ => for_each body rest)
  end.

(** [try { block } catch { return handler }]. *)
Definition catch (block : M Response) (handler : Response) : Store -> Response * Store :=
  fun st =>
    match block st with
    | (Some r, st') => (r, st')
    | (None, st') => (handler, st')
    end.

End Try.

Notation "x <- c ;; k" := (Try.bind c (fun x => k))
  (at level 61, c at next level, right associativity).
Notation "c ;;; k" := (Try.bind c (fun _ => k))
  (at level 61, right associativity).

Definition internal_error (message : string) : Response :=
  {| status := 500; payload := PError "Internal server error" message None |}.

Definition bad_request (message : string) : Response :=
  {| status := 400; payload := PError "Bad request" message None |}.

Definition not_found (id_text : string) : Response :=
  {| status := 404;
     payload := PError "Not found" ("Stock with id " ++ id_text ++ " not found") None |}.

(** ** GET *)

Definition GET (now t_response : Z) (request : Request) (st : Store) : Response * Store :=
  match authorize request "GET" with
  | Some authError => (authError, st)
  | None =>
      let isPublicAccess := is_status (query_key request) in
      let st' := cleanupExpiredData now st in
      let by_id (k : string) :=
        match JsMap.get k st' with
        | None => (not_found k, st')
        | Some stock =>
            ({| status := 200;
                payload := PStock stock (if isPublicAccess then Some "public" else None) |},
             st')
        end in
      let all :=
        let allStocks := JsMap.values st' in
        ({| status := 200;
            payload := PAllStocks allStocks (List.length allStocks) t_response
                         (if isPublicAccess then Some "public" else None)
                         (if isPublicAccess
                          then Some "Public access via ?key=status parameter"
                          else None) |},
         st') in
      match query_id request with
      | Some k => if (k =? "")%string then all else by_id k
      | None => all
      end
  end.

(** ** POST *)

(** One iteration of the loop over [body.normalStock] or
    [body.mirageStock]; [tag] is ["normal"] or ["mirage"], [variant] is
    [" (Normal)"] or [" (Mirage)"]. *)
Definition process_fruit (tag variant : string) (now : Z) (sessionId fruit : JsValue)
  : Try.M unit :=
  fruit_name <- Try.lift (get_prop fruit "name") ;;
  if truthy fruit_name then
    fruit_price <- Try.lift (get_prop fruit "price") ;;
    if is_number fruit_price then
      lowered <- Try.lift (call_toLowerCase fruit_name) ;;
      suffix <- Try.lift (call_slice_last8 sessionId) ;;
      let id := tag ++ "-" ++ replace_spaces lowered ++ "-" ++ suffix in
      Try.set id {| id := id;
                    name := JStr (to_string fruit_name ++ variant);
                    price := fruit_price;
                    quantity := JNum 1;
                    lastUpdated := now;
                    createdAt := now |}
    else Try.ret tt
  else Try.ret tt.

(** [if (stock && Array.isArray(stock)) for (const fruit of stock) ...]. *)
Definition process_stock (tag variant : string) (now : Z) (sessionId stock : JsValue)
  : Try.M unit :=
  match stock with
  | JArr fruits => Try.for_each (process_fruit tag variant now sessionId) fruits
  | _ => Try.ret tt
  end.

(** [v?.length]. *)
Definition optional_length (v : JsValue) : JsValue :=
  match v with
  | JArr items => JNum (Z.of_nat (List.length items))
  | JStr s => JNum (Z.of_nat (String.length s))
  | JObj fields => lookup_field "length" fields
  | _ => JUndefined
  end.

Definition POST (t1 t2 : Z) (request : Request) : Store -> Response * Store :=
  match authorize request "POST" with
  | Some authError => fun st => (authError, st)
  | None =>
      Try.catch
        (body <- Try.lift (json_body request) ;;
         sessionId <- Try.lift (get_prop body "sessionId") ;;
         normalStock <- Try.lift (get_prop body "normalStock") ;;
         mirageStock <- Try.lift (get_prop body "mirageStock") ;;
         if truthy sessionId && (truthy normalStock || truthy mirageStock) then
           let now := t1 in
           process_stock "normal" " (Normal)" now sessionId normalStock ;;;
           process_stock "mirage" " (Mirage)" now sessionId mirageStock ;;;
           playerName <- Try.lift (get_prop body "playerName") ;;
           serverId <- Try.lift (get_prop body "serverId") ;;
           totalFruits <- Try.lift (get_prop body "totalFruits") ;;
           Try.ret {| status := 201;
                      payload := PBatch "Blox Fruits stock updated successfully"
                                   sessionId playerName serverId
                                   (or_else (optional_length normalStock) (JNum 0))
                                   (or_else (optional_length mirageStock) (JNum 0))
                                   (or_else totalFruits (JNum 0))
                                   now |}
         else
           name <- Try.lift (get_prop body "name") ;;
           price <- Try.lift (get_prop body "price") ;;
           quantity <- Try.lift (get_prop body "quantity") ;;
           if negb (truthy name) || negb (is_number price) || negb (is_number quantity) then
             Try.ret (bad_request
               "Missing or invalid fields: name, price, quantity required OR use Roblox format with sessionId, normalStock, mirageStock")
           else
             lowered <- Try.lift (call_toLowerCase name) ;;
             let id := replace_spaces lowered ++ "-" ++ num_to_string t1 in
             let now := t2 in
             let newStock := {| id := id; name := name; price := price;
                                quantity := quantity;
                                lastUpdated := now; createdAt := now |} in
             Try.set id newStock ;;;
             Try.ret {| status := 201;
                        payload := PCreated "Stock created successfully" newStock |})
        (internal_error "Failed to create stock")
  end.

(** ** PUT *)

(** [stocksData.get(v)] for an arbitrary value: the keys of the map are
    strings, and only an equal string is the same key. *)
Definition get_by_value (v : JsValue) (st : Store) : option (string * StockData) :=
  match v with
  | JStr k => option_map (fun data => (k, data)) (JsMap.get k st)
  | _ => None
  end.

Definition PUT (t : Z) (request : Request) : Store -> Response * Store :=
  match authorize request "PUT" with
  | Some authError => fun st => (authError, st)
  | None =>
      Try.catch
        (body <- Try.lift (json_body request) ;;
         id' <- Try.lift (get_prop body "id") ;;
         name' <- Try.lift (get_prop body "name") ;;
         price' <- Try.lift (get_prop body "price") ;;
         quantity' <- Try.lift (get_prop body "quantity") ;;
         if negb (truthy id') then Try.ret (bad_request "Stock ID is required")
         else
           st <- Try.entries ;;
           match get_by_value id' st with
           | None => Try.ret (not_found (to_string id'))
           | Some (k, existingStock) =>
               let updatedStock :=
                 {| id := existingStock.(id);
                    name := coalesce name' existingStock.(name);
                    price := coalesce price' existingStock.(price);
                    quantity := coalesce quantity' existingStock.(quantity);
                    lastUpdated := t;
                    createdAt := existingStock.(createdAt) |} in
               Try.set k updatedStock ;;;
               Try.ret {| status := 200;
                          payload := PUpdated "Stock updated successfully" updatedStock |}
           end)
        (internal_error "Failed to update stock")
  end.

(** ** DELETE *)

(** The loop of the session cleanup over the entries of the map, with its
    counter.  The argument of [includes] is evaluated at every iteration.
    As in [cleanupExpiredData], only the visited key is deleted. *)
Fixpoint delete_matching (sessionId : JsValue) (entries : list (string * StockData))
                         (deletedCount : nat) : Try.M nat :=
  match entries with
  | [] => Try.ret deletedCount
  | (key, _) :: rest =>
      suffix <- Try.lift (call_slice_last8 sessionId) ;;
      if includes key suffix then
        Try.delete key ;;;
        delete_matching sessionId rest (S deletedCount)
      else delete_matching sessionId rest deletedCount
  end.

(** The inner [try] block of DELETE; [Some None] when it falls through
    without returning. *)
Definition session_cleanup (request : Request) : Try.M (option Response) :=
  body <- Try.lift (json_body request) ;;
  sessionId <- Try.lift (get_prop body "sessionId") ;;
  if truthy sessionId then
    entries <- Try.entries ;;
    deletedCount <- delete_matching sessionId entries 0 ;;
    suffix <- Try.lift (call_slice_last8 sessionId) ;;
    reason <- Try.lift (get_prop body "reason") ;;
    Try.ret (Some {| status := 200;
                     payload := PSessionCleaned ("Session " ++ suffix ++ " cleaned up")
                                  deletedCount (or_else reason (JStr "unknown")) |})
  else Try.ret None.

(** Nothing outside the inner [try] can throw, so the outer handler's 500
    is never produced. *)
Definition DELETE (request : Request) (st : Store) : Response * Store :=
  match authorize request "DELETE" with
  | Some authError => (authError, st)
  | None =>
      let without_id :=
        match session_cleanup request st with
        | (Some (Some response), st') => (response, st')
        | (_, st') => (bad_request "Stock ID is required", st')
        end in
      let with_id (k : string) :=
        match JsMap.get k st with
        | None => (not_found k, st)
        | Some existingStock =>
            ({| status := 200;
                payload := PDeleted ("Stock " ++ k ++ " deleted successfully")
                                    existingStock |},
             JsMap.delete k st)
        end in
      match query_id request with
      | Some k => if (k =? "")%string then without_id else with_id k
      | None => without_id
      end
  end.

(** ** PATCH *)

(** [existingStock] is the object the map holds; no other reference to it
    exists (entries are built by POST and PUT and leave a handler only
    serialised), so the assignment to its [lastUpdated] is an update of the
    map's entry, and the [set] that follows stores the same object again. *)
Definition PATCH (t : Z) (request : Request) : Store -> Response * Store :=
  match authorize request "PATCH" with
  | Some authError => fun st => (authError, st)
  | None =>
      Try.catch
        (body <- Try.lift (json_body request) ;;
         id' <- Try.lift (get_prop body "id") ;;
         if negb (truthy id') then Try.ret (bad_request "Stock ID is required for ping")
         else
           st <- Try.entries ;;
           match get_by_value id' st with
           | None => Try.ret (not_found (to_string id'))
           | Some (k, existingStock) =>
               let pinged :=
                 {| id := existingStock.(id);
                    name := existingStock.(name);
                    price := existingStock.(price);
                    quantity := existingStock.(quantity);
                    lastUpdated := t;
                    createdAt := existingStock.(createdAt) |} in
               Try.set k pinged ;;;
               Try.ret {| status := 200;
                          payload := PPinged "Stock pinged successfully"
                                             pinged.(lastUpdated) |}
           end)
        (internal_error "Failed to ping stock")
  end.

(** ** The server as a transition system *)

(** What can happen to the store: a request to one of the handlers, or the
    interval timer firing [cleanupExpiredData]. *)
Inductive Event : Type :=
| EvGET (now t_response : Z) (request : Request)
| EvPOST (t1 t2 : Z) (request : Request)
| EvPUT (t : Z) (request : Request)
| EvDELETE (request : Request)
| EvPATCH (t : Z) (request : Request)
| EvTimer (now : Z).

Definition step (st : Store) (ev : Event) : Store :=
  match ev with
  | EvGET now t request => snd (GET now t request st)
  | EvPOST t1 t2 request => snd (POST t1 t2 request st)
  | EvPUT t request => snd (PUT t request st)
  | EvDELETE request => snd (DELETE request st)
  | EvPATCH t request => snd (PATCH t request st)
  | EvTimer now => cleanupExpiredData now st
  end.

Definition run (evs : list Event) (st : Store) : Store := fold_left step evs st.

Definition is_post (ev : Event) : bool :=
  match ev with EvPOST _ _ _ => true | _ => false end.

(** ** Vocabulary of the statements *)

(** A relation between the store before and the store after is respected by
    a computation when it holds of every run of it, also of one that
    throws. *)
Definition respects (R : Store -> Store -> Prop) {A} (c : Try.M A) : Prop :=
  forall st, R st (snd (c st)).

(** The event leaves the [createdAt] of every entry that it keeps. *)
Definition preserves_createdAt (ev : Event) : Prop :=
  forall st k d d',
    JsMap.wf st = true ->
    JsMap.get k st = Some d ->
    JsMap.get k (step st ev) = Some d' ->
    createdAt d' = createdAt d.

(** Every entry of [st'] is an entry of [st] or was written at [t1] or at
    [t2], with [createdAt] and [lastUpdated] both at that time. *)
Definition kept_or_written (t1 t2 : Z) (st st' : Store) : Prop :=
  forall k d',
    JsMap.get k st' = Some d' ->
    JsMap.get k st = Some d' \/
    (createdAt d' = lastUpdated d' /\ (createdAt d' = t1 \/ createdAt d' = t2)).

Definition keeps_wf (st st' : Store) : Prop :=
  JsMap.wf st = true -> JsMap.wf st' = true.

(** Every entry is stored under its own [id]. *)
Definition keyed (st : Store) : bool :=
  forallb (fun kv => (fst kv =? id (snd kv))%string) st.

Definition keeps_keyed (st st' : Store) : Prop :=
  keyed st = true -> keyed st' = true.

(** [v.key] when [v] is known not to be [null]. *)
Definition field (v : JsValue) (key : string) : JsValue :=
  match get_prop v key with
  | Some x => x
  | None => JUndefined
  end.

(** The test by which POST takes a body for a session batch. *)
Definition batch_shaped (body : JsValue) : bool :=
  truthy (field body "sessionId")
  && (truthy (field body "normalStock") || truthy (field body "mirageStock")).

(** The entry that a batch element [{name, price}] becomes. *)
Definition batch_entry (tag variant : string) (now : Z) (suffix n : string) (p : Z)
  : string * StockData :=
  let k := tag ++ "-" ++ replace_spaces (toLowerCase n) ++ "-" ++ suffix in
  (k, {| id := k; name := JStr (n ++ variant); price := JNum p;
         quantity := JNum 1; lastUpdated := now; createdAt := now |}).

(** The element can be read and tested without a [TypeError]: it is not
    [null], and when its name is truthy and its price a number, the name is
    a string. *)
Definition harmless (fr : JsValue) : bool :=
  match get_prop fr "name" with
  | None => false
  | Some v =>
      if truthy v && is_number (field fr "price")
      then match v with JStr _ => true | _ => false end
      else true
  end.

(** What one harmless element does to the store: nothing, unless it has a
    non-empty string for a name and a number for a price. *)
Definition store_fruit (tag variant : string) (now : Z) (suffix : string)
                       (acc : Store) (fr : JsValue) : Store :=
  match field fr "name", field fr "price" with
  | JStr n, JNum p =>
      if (n =? "")%string then acc
      else JsMap.set (fst (batch_entry tag variant now suffix n p))
                     (snd (batch_entry tag variant now suffix n p)) acc
  | _, _ => acc
  end.

(** The key of [kv] contains [suffix]. *)
Definition of_session (suffix : string) (kv : string * StockData) : bool :=
  includes (fst kv) suffix.

(** The entry [d] with [lastUpdated] set to [t] and nothing else changed. *)
Definition touched (t : Z) (d : StockData) : StockData :=
  {| id := id d; name := name d; price := price d; quantity := quantity d;
     lastUpdated := t; createdAt := createdAt d |}.

(** The payload without its access-mode marker and the note that comes
    with it. *)
Definition strip_access (p : Payload) : Payload :=
  match p with
  | PStock d _ => PStock d None
  | PAllStocks ds n t _ _ => PAllStocks ds n t None None
  | _ => p
  end.

(** The [deletedCount] of the answer to a session cleanup. *)
Definition response_deletedCount (r : Response) : option nat :=
  match payload r with
  | PSessionCleaned _ n _ => Some n
  | _ => None
  end.

(** ** Requests and stores used in the examples *)

Definition authorized (body : option JsValue) : Request :=
  {| query_id := None; query_key := None;
     authorization := Some validKey; json_body := body |}.

Definition fruit (n : string) (p : Z) : JsValue :=
  JObj [("name", JStr n); ("price", JNum p)].

Definition batch (sessionId : string) (normalStock mirageStock : list JsValue) : JsValue :=
  JObj [("sessionId", JStr sessionId);
        ("normalStock", JArr normalStock);
        ("mirageStock", JArr mirageStock)].

Definition generic_post (fields : list (string * JsValue)) : Request :=
  authorized (Some (JObj fields)).

Definition public_get (k : option string) : Request :=
  {| query_id := k; query_key := Some "status";
     authorization := None; json_body := None |}.

Definition authorized_get (k : option string) : Request :=
  {| query_id := k; query_key := None;
     authorization := Some validKey; json_body := None |}.

Definition sample_entry (k label : string) (p updated created : Z)
  : string * StockData :=
  (k, {| id := k; name := JStr label; price := JNum p; quantity := JNum 1;
         lastUpdated := updated; createdAt := created |}).

(** Two entries of one session and one of another, last written at 0,
    500000 and 650000 milliseconds. *)
Definition sample_store : Store :=
  [ sample_entry "normal-apple-12345678" "Apple (Normal)" 100 0 0;
    sample_entry "mirage-banana-12345678" "Banana (Mirage)" 200 500000 0;
    sample_entry "normal-kilo-87654321" "Kilo (Normal)" 5 650000 650000 ].

(** A body that names the banana of [sample_store] and nothing else. *)
Definition banana_ping : Request :=
  authorized (Some (JObj [("id", JStr "mirage-banana-12345678")])).

(** A keep-alive, a sweep of the timer and a partial update that names no
    field. *)
Definition banana_trace : list Event :=
  [EvPATCH 550000 banana_ping; EvTimer 700000; EvPUT 700001 banana_ping].

(** A request that names the apple of [sample_store] both in its body and
    in its query. *)
Definition apple_request : Request :=
  {| query_id := Some "normal-apple-12345678"; query_key := None;
     authorization := Some validKey;
     json_body := Some (JObj [("id", JStr "normal-apple-12345678")]) |}.

Definition session_delete (sessionId : string) : Request :=
  authorized (Some (JObj [("sessionId", JStr sessionId); ("reason", JStr "server closed")])).

Definition apple_batch : Request :=
  authorized (Some (batch "abcdefgh12345678" [fruit "Apple" 100] [])).

Definition apple_banana_batch : Request :=
  authorized (Some (batch "abcdefgh12345678" [fruit "Apple" 100] [fruit "Banana" 200])).

Definition apple_posted_once : Store := snd (POST 1000 1000 apple_batch JsMap.empty).

Definition apple_posted_twice : Store := snd (POST 2000 2000 apple_batch apple_posted_once).

(** A batch with elements that cannot be stored, none of which throws: one
    without a name, one with a price that is not a number, one without a
    price, a string and a number. *)
Definition lenient_batch : Request :=
  authorized (Some (batch "abcdefgh12345678"
                          [JObj [("price", JNum 5)];
                           JObj [("name", JStr "Kilo"); ("price", JStr "not-a-number")];
                           fruit "Apple" 100;
                           JObj [("name", JStr "Spin")]]
                          [JStr "Flame"; fruit "Banana" 200; JNum 3])).

(** A batch whose first array holds a [null] before a valid element. *)
Definition null_element_batch : Request :=
  authorized (Some (batch "abcdefgh12345678"
                          [JNull; fruit "Apple" 100] [fruit "Banana" 200])).

(** A batch whose first array holds an element without a name, a valid
    element, and an element with a number for a name. *)
Definition numeric_name_batch : Request :=
  authorized (Some (batch "abcdefgh12345678"
                          [JObj [("price", JStr "not-a-number")];
                           fruit "Apple" 100;
                           JObj [("name", JNum 7); ("price", JNum 1)]]
                          [fruit "Banana" 200])).


(** ** Further vocabulary *)

(** What PUT stores for the entry [d]: the [name], [price] and [quantity]
    of the body where it gives them, those of [d] where it does not. *)
Definition merged (t : Z) (body : JsValue) (d : StockData) : StockData :=
  {| id := id d;
     name := coalesce (field body "name") (name d);
     price := coalesce (field body "price") (price d);
     quantity := coalesce (field body "quantity") (quantity d);
     lastUpdated := t;
     createdAt := createdAt d |}.

(** The record that a valid generic POST stores. *)
Definition generic_entry (t1 t2 : Z) (n : string) (p q : Z) : string * StockData :=
  let k := replace_spaces (toLowerCase n) ++ "-" ++ num_to_string t1 in
  (k, {| id := k; name := JStr n; price := JNum p; quantity := JNum q;
         lastUpdated := t2; createdAt := t2 |}).

(** The readings of the clock that an event makes, in program order. *)
Definition readings (ev : Event) : list Z :=
  match ev with
  | EvGET now t _ => [now; t]
  | EvPOST t1 t2 _ => [t1; t2]
  | EvPUT t _ | EvPATCH t _ => [t]
  | EvDELETE _ => []
  | EvTimer now => [now]
  end.

(** The clock never goes back: the readings, from [T] on, do not
    decrease. *)
Fixpoint nondecreasing_from (T : Z) (l : list Z) : bool :=
  match l with
  | [] => true
  | t :: rest => (T <=? t) && nondecreasing_from t rest
  end.

Definition clock_ordered (T : Z) (evs : list Event) : bool :=
  nondecreasing_from T (flat_map readings evs).

(** Every entry was last updated no earlier than it was created, and no
    later than [T]. *)
Definition stamped (T : Z) (st : Store) : Prop :=
  forall kv, In kv st ->
             createdAt (snd kv) <= lastUpdated (snd kv) /\ lastUpdated (snd kv) <= T.

(** Every entry of [st'] is an entry of [st] or was written at [t1] or at
    [t2]. *)
Definition old_or_written (t1 t2 : Z) (st st' : Store) : Prop :=
  forall kv, In kv st' ->
             In kv st \/
             (createdAt (snd kv) = lastUpdated (snd kv) /\
              (lastUpdated (snd kv) = t1 \/ lastUpdated (snd kv) = t2)).

(** No character of the string is white space. *)
Definition no_space (s : string) : bool :=
  forallb (fun c => negb (is_space c)) (list_ascii_of_string s).

(** ** Further requests used in the examples *)

Definition kilo_post : Request :=
  generic_post [("name", JStr "Kilo Fruit"); ("price", JNum 5); ("quantity", JNum 2)].

(** Only the public flag, on any method. *)
Definition flag_only (body : option JsValue) : Request :=
  {| query_id := None; query_key := Some "status";
     authorization := None; json_body := body |}.

Definition banana_update : Request :=
  authorized (Some (JObj [("id", JStr "mirage-banana-12345678");
                          ("price", JNum 250); ("name", JNull)])).

Definition delete_by_id (k : string) : Request :=
  {| query_id := Some k; query_key := None;
     authorization := Some validKey; json_body := None |}.

Definition wipe_request : Request :=
  authorized (Some (JObj [("sessionId", JArr [])])).


(** The characters by which a DELETE without [id] picks the entries to
    remove: those of the last eight units of a truthy [sessionId] that has a
    [slice] method; [None] when the body gives none. *)
Definition session_suffix (body : option JsValue) : option string :=
  match body with
  | None => None
  | Some b =>
      match get_prop b "sessionId" with
      | None => None
      | Some sessionId =>
          if truthy sessionId then call_slice_last8 sessionId else None
      end
  end.

Definition no_id (request : Request) : bool :=
  match query_id request with
  | None => true
  | Some k => (k =? "")%string
  end.


(** ** The viewer page *)

(** [formatTimeAgo(timestamp)] of the viewer, [now] being its reading of
    the clock.  Both are integer milliseconds, and for ages below 2^40
    milliseconds [Math.floor] of the quotient of doubles is the integer
    quotient rounded down. *)
Definition formatTimeAgo (now timestamp : Z) : string :=
  let seconds := (now - timestamp) / 1000 in
  if seconds <? 60 then num_to_string seconds ++ "s ago"
  else
    let minutes := seconds / 60 in
    if minutes <? 60 then num_to_string minutes ++ "m ago"
    else
      let hours := minutes / 60 in
      num_to_string hours ++ "h ago".

(** [v.includes(sub)] on an arbitrary value, [sub] a string: a string
    looks for a substring, an array for an element strictly equal to [sub];
    nothing else has the method, and the call throws. *)
Definition call_includes (v : JsValue) (sub : string) : option bool :=
  match v with
  | JStr s => Some (includes s sub)
  | JArr items =>
      Some (existsb (fun x => match x with
                              | JStr s => (s =? sub)%string
                              | _ => false
                              end) items)
  | _ => None
  end.

(** [stocks.filter((stock) => stock.name.includes(sub))]; [None] when the
    callback throws. *)
Fixpoint filter_by_name (sub : string) (stocks : list StockData)
  : option (list StockData) :=
  match stocks with
  | [] => Some []
  | stock :: rest =>
      match call_includes (name stock) sub with
      | None => None
      | Some keep =>
          match filter_by_name sub rest with
          | None => None
          | Some kept => Some (if keep then stock :: kept else kept)
          end
      end
  end.

Definition normalFruits (stocks : list StockData) : option (list StockData) :=
  filter_by_name "(Normal)" stocks.

Definition mirageFruits (stocks : list StockData) : option (list StockData) :=
  filter_by_name "(Mirage)" stocks.

Fixpoint drop_units (n : nat) (s : string) : string :=
  match n, s with
  | O, _ => s
  | S n', String _ rest => drop_units n' rest
  | S _, EmptyString => EmptyString
  end.

(** [s.replace(pat, "")] for a string pattern: the first occurrence of
    [pat] is taken out. *)
Fixpoint remove_first (pat s : string) : string :=
  if prefix pat s then drop_units (String.length pat) s
  else
    match s with
    | EmptyString => EmptyString
    | String c rest => String c (remove_first pat rest)
    end.

(** The heading of a card: [fruit.name.replace(variant, "")]; only a string
    has the method. *)
Definition display_name (variant : string) (v : JsValue) : option string :=
  match v with
  | JStr s => Some (remove_first variant s)
  | _ => None
  end.

(** The [stocks] of the page after [fetchStocks]: the [data] of the answer
    to a GET with [key=status] and nothing else. *)
Definition fetched_stocks (now t : Z) (st : Store) : list StockData :=
  response_entries (fst (GET now t (public_get None) st)).

(** ** Further examples *)

Definition apple_ping : Request :=
  authorized (Some (JObj [("id", JStr "normal-apple-12345678")])).

Definition ordered_trace : list Event :=
  [EvPOST 1000 1001 apple_batch; EvPATCH 2000 apple_ping; EvGET 3000 3001 (public_get None)].

Definition banana_rename : Request :=
  authorized (Some (JObj [("id", JStr "mirage-banana-12345678"); ("name", JNum 7)])).


(** ** Letters, safe integers and string names *)

(** An upper-case letter of Latin-1: A to Z, and the accented capitals
    but the multiplication sign. *)
Definition is_upper (c : ascii) : bool :=
  let n := nat_of_ascii c in
  (((65 <=? n) && (n <=? 90))
   || ((192 <=? n) && (n <=? 214))
   || ((216 <=? n) && (n <=? 222)))%nat.

(** No character of the string is an upper-case letter. *)
Definition no_upper (s : string) : bool :=
  forallb (fun c => negb (is_upper c)) (list_ascii_of_string s).


(** The entry's name is a string. *)
Definition has_string_name (d : StockData) : bool :=
  match name d with JStr _ => true | _ => false end.

Definition string_names (st : Store) : bool :=
  forallb (fun kv => has_string_name (snd kv)) st.

(** The callback of the page's filters, where it does not throw. *)
Definition keeps (sub : string) (d : StockData) : bool :=
  match call_includes (name d) sub with
  | Some true => true
  | _ => false
  end.

(** The string holds no character [c]. *)
Definition lacks (c : ascii) (s : string) : bool :=
  forallb (fun x => negb (Ascii.eqb c x)) (list_ascii_of_string s).

(** * Properties *)

(** ** The map *)

Module JsMapFacts.
Import JsMap.

Lemma mem_In (k : string) (l : list string) : mem k l = true <-> In k l.
Proof.
  induction l as [|k' l IH]; simpl.
  - split; [discriminate | tauto].
  - rewrite orb_true_iff, IH, String.eqb_eq. tauto.
Qed.

Lemma nodup_keys_NoDup (l : list string) : nodup_keys l = true <-> NoDup l.
Proof.
  induction l as [|k l IH]; simpl.
  - split; [constructor | reflexivity].
  - rewrite andb_true_iff, negb_true_iff, IH. split.
    + intros [Hm Hn]. constructor; [|exact Hn].
      intro Hin. apply mem_In in Hin. congruence.
    + intros Hn. inversion Hn as [|? ? Hk Hl]; subst. split; [|exact Hl].
      destruct (mem k l) eqn:E; [|reflexivity].
      apply mem_In in E. contradiction.
Qed.

Lemma wf_NoDup (m : t) : wf m = true <-> NoDup (keys m).
Proof. apply nodup_keys_NoDup. Qed.

Lemma get_In (k : string) (d : StockData) (m : t) :
  get k m = Some d -> In (k, d) m.
Proof.
  induction m as [|[k' d'] m IH]; simpl; [discriminate|].
  destruct (String.eqb_spec k' k) as [->|Hne].
  - intros [= ->]. now left.
  - intros H. right. now apply IH.
Qed.

Lemma get_None_keys (k : string) (m : t) : get k m = None <-> ~ In k (keys m).
Proof.
  induction m as [|[k' d'] m IH]; simpl; [tauto|].
  destruct (String.eqb_spec k' k) as [->|Hne].
  - split; [discriminate | intros H; exfalso; apply H; now left].
  - rewrite IH. split; [intros H [E|I]; [congruence | tauto] | tauto].
Qed.

Lemma In_keys (k : string) (d : StockData) (m : t) : In (k, d) m -> In k (keys m).
Proof. intros H. apply (in_map fst) in H. exact H. Qed.

Lemma In_get (k : string) (d : StockData) (m : t) :
  NoDup (keys m) -> In (k, d) m -> get k m = Some d.
Proof.
  induction m as [|[k' d'] m IH]; simpl; [tauto|].
  intros Hnd Hin. inversion Hnd as [|? ? Hk Hm]; subst.
  destruct Hin as [[= -> ->]|Hin].
  - now rewrite String.eqb_refl.
  - destruct (String.eqb_spec k' k) as [->|Hne].
    + exfalso. apply Hk. eapply In_keys; eauto.
    + now apply IH.
Qed.

Lemma get_set_eq (k : string) (d : StockData) (m : t) : get k (set k d m) = Some d.
Proof.
  induction m as [|[k' d'] m IH]; simpl.
  - now rewrite String.eqb_refl.
  - destruct (String.eqb_spec k' k) as [->|Hne]; simpl.
    + now rewrite String.eqb_refl.
    + destruct (String.eqb_spec k' k); [contradiction | exact IH].
Qed.

Lemma get_set_ne (k k' : string) (d : StockData) (m : t) :
  k <> k' -> get k' (set k d m) = get k' m.
Proof.
  intros Hne. induction m as [|[k0 d0] m IH]; simpl.
  - destruct (String.eqb_spec k k'); [contradiction | reflexivity].
  - destruct (String.eqb_spec k0 k) as [->|Hk]; simpl.
    + destruct (String.eqb_spec k k'); [contradiction | reflexivity].
    + destruct (String.eqb_spec k0 k'); [reflexivity | exact IH].
Qed.

Lemma get_set (k k' : string) (d : StockData) (m : t) :
  get k' (set k d m) = if (k =? k')%string then Some d else get k' m.
Proof.
  destruct (String.eqb_spec k k') as [->|Hne].
  - apply get_set_eq.
  - now apply get_set_ne.
Qed.

Lemma keys_set_present (k : string) (d d0 : StockData) (m : t) :
  get k m = Some d0 -> keys (set k d m) = keys m.
Proof.
  induction m as [|[k' d'] m IH]; simpl; [discriminate|].
  destruct (String.eqb_spec k' k) as [->|Hne]; simpl.
  - reflexivity.
  - intros H. f_equal. now apply IH.
Qed.

Lemma keys_set_absent (k : string) (d : StockData) (m : t) :
  get k m = None -> keys (set k d m) = (keys m ++ [k])%list.
Proof.
  induction m as [|[k' d'] m IH]; simpl; [reflexivity|].
  destruct (String.eqb_spec k' k) as [->|Hne]; simpl.
  - discriminate.
  - intros H. f_equal. now apply IH.
Qed.

Lemma wf_set (k : string) (d : StockData) (m : t) :
  wf m = true -> wf (set k d m) = true.
Proof.
  rewrite !wf_NoDup. intros Hnd.
  destruct (get k m) as [d0|] eqn:E.
  - now rewrite (keys_set_present k d d0 m E).
  - rewrite (keys_set_absent k d m E).
    apply NoDup_app; [exact Hnd | repeat constructor; simpl; tauto |].
    intros x Hx [<-|[]]. apply get_None_keys in E. contradiction.
Qed.

Lemma keys_filter_incl (f : string * StockData -> bool) (m : t) (k : string) :
  In k (keys (filter f m)) -> In k (keys m).
Proof.
  unfold keys. rewrite !in_map_iff. intros [kv [E Hin]].
  apply filter_In in Hin. exists kv. tauto.
Qed.

Lemma wf_filter (f : string * StockData -> bool) (m : t) :
  wf m = true -> wf (filter f m) = true.
Proof.
  rewrite !wf_NoDup.
  induction m as [|[k d] m IH]; simpl; [trivial|].
  intros Hnd. inversion Hnd as [|? ? Hk Hm]; subst.
  destruct (f (k, d)); simpl; [|now apply IH].
  constructor; [|now apply IH].
  intro Hin. apply Hk. eapply keys_filter_incl; eauto.
Qed.

Lemma wf_delete (k : string) (m : t) : wf m = true -> wf (delete k m) = true.
Proof. apply wf_filter. Qed.

(** Looking a key up in what a filter keeps of a map. *)
Lemma get_filter (f : string * StockData -> bool) (k : string) (m : t) :
  wf m = true ->
  get k (filter f m) =
  match get k m with
  | Some d => if f (k, d) then Some d else None
  | None => None
  end.
Proof.
  rewrite wf_NoDup.
  induction m as [|[k' d'] m IH]; simpl; [reflexivity|].
  intros Hnd. inversion Hnd as [|? ? Hk Hm]; subst.
  destruct (String.eqb_spec k' k) as [->|Hne].
  - destruct (f (k, d')) eqn:Ef; simpl.
    + now rewrite String.eqb_refl.
    + apply get_None_keys. intro Hin. apply Hk.
      eapply keys_filter_incl; eauto.
  - destruct (f (k', d')); simpl.
    + destruct (String.eqb_spec k' k); [contradiction | now apply IH].
    + now apply IH.
Qed.

Lemma get_delete (k k' : string) (m : t) :
  wf m = true ->
  get k' (delete k m) = if (k =? k')%string then None else get k' m.
Proof.
  intros Hwf. unfold delete. rewrite get_filter by exact Hwf. simpl.
  rewrite String.eqb_sym.
  destruct (k =? k')%string; simpl; destruct (get k' m); reflexivity.
Qed.

Lemma filter_filter {A} (f g : A -> bool) (l : list A) :
  filter f (filter g l) = filter (fun x => g x && f x) l.
Proof.
  induction l as [|x l IH]; simpl; [reflexivity|].
  destruct (g x); simpl; [destruct (f x)|]; now rewrite IH.
Qed.

Lemma filter_true {A} (l : list A) : filter (fun _ => true) l = l.
Proof. induction l as [|x l IH]; simpl; [|rewrite IH]; reflexivity. Qed.

(** Two entries of a map under one key are one entry. *)
Lemma In_unique (k : string) (d d' : StockData) (m : t) :
  wf m = true -> In (k, d) m -> In (k, d') m -> d = d'.
Proof.
  intros Hwf H1 H2. apply wf_NoDup in Hwf.
  apply (In_get _ _ _ Hwf) in H1. apply (In_get _ _ _ Hwf) in H2. congruence.
Qed.

End JsMapFacts.
Import JsMapFacts.

(** ** The sweep *)

Section Sweep.

Variable now : Z.

(** The loop over any list of entries, run on any store. *)
Lemma cleanup_loop (l : list (string * StockData)) (acc : Store) :
  fold_left (cleanup_step now) l acc = filter (fun kv => negb (swept_by now l kv)) acc.
Proof.
  revert acc. induction l as [|a l IH]; intros acc; simpl.
  - symmetry. apply filter_true.
  - rewrite IH. unfold cleanup_step, JsMap.delete.
    destruct (expired now (snd a)) eqn:E.
    + rewrite filter_filter. apply filter_ext. intros kv.
      rewrite andb_true_r, negb_orb, String.eqb_sym. reflexivity.
    + apply filter_ext. intros kv. now rewrite andb_false_r.
Qed.

Lemma swept_by_self (st : Store) (kv : string * StockData) :
  JsMap.wf st = true -> In kv st -> swept_by now st kv = expired now (snd kv).
Proof.
  intros Hwf Hin. unfold swept_by.
  destruct (expired now (snd kv)) eqn:E.
  - apply existsb_exists. exists kv. now rewrite String.eqb_refl, E.
  - destruct (existsb _ st) eqn:Ex; [|reflexivity].
    apply existsb_exists in Ex. destruct Ex as [[k' d'] [Hin' Hc]].
    simpl in Hc. apply andb_true_iff in Hc. destruct Hc as [Hk He].
    apply String.eqb_eq in Hk. destruct kv as [k d]. simpl in *. subst k'.
    assert (d' = d) by (eapply In_unique; eauto). subst. congruence.
Qed.

(** On a map, the sweep is the filter that keeps the entries not expired,
    in their order. *)
Lemma cleanup_filter (st : Store) :
  JsMap.wf st = true ->
  cleanupExpiredData now st = filter (fun kv => negb (expired now (snd kv))) st.
Proof.
  intros Hwf. unfold cleanupExpiredData. rewrite cleanup_loop.
  apply filter_ext_in. intros kv Hin. now rewrite swept_by_self.
Qed.

(** Whatever the sweep leaves was there and has not expired. *)
Lemma cleanup_In (st : Store) (kv : string * StockData) :
  In kv (cleanupExpiredData now st) -> In kv st /\ expired now (snd kv) = false.
Proof.
  unfold cleanupExpiredData. rewrite cleanup_loop. intros H.
  apply filter_In in H. destruct H as [Hin Hs]. split; [exact Hin|].
  apply negb_true_iff in Hs. unfold swept_by in Hs.
  destruct (expired now (snd kv)) eqn:E; [|reflexivity].
  assert (existsb (fun kv' => (fst kv' =? fst kv)%string && expired now (snd kv')) st = true).
  { apply existsb_exists. exists kv. now rewrite String.eqb_refl, E. }
  congruence.
Qed.

Lemma wf_cleanup (st : Store) :
  JsMap.wf st = true -> JsMap.wf (cleanupExpiredData now st) = true.
Proof.
  intros Hwf. unfold cleanupExpiredData. rewrite cleanup_loop. now apply wf_filter.
Qed.

End Sweep.

Lemma expired_spec (now : Z) (d : StockData) :
  expired now d = true <-> now - lastUpdated d > DATA_EXPIRY.
Proof. unfold expired. rewrite Z.gtb_gt. reflexivity. Qed.

Lemma not_expired_spec (now : Z) (d : StockData) :
  expired now d = false <-> now - lastUpdated d <= DATA_EXPIRY.
Proof.
  unfold expired. destruct (Z.gtb_spec (now - lastUpdated d) DATA_EXPIRY); split;
    intros; try lia; try reflexivity; discriminate.
Qed.

(** C3. One sweep at time [now], with the expiry of ten minutes, removes
    exactly the entries with [now - lastUpdated > DATA_EXPIRY]: such an entry
    is gone, every other entry is still there with all its fields, no entry
    appears, and the entries kept are in their former order. *)
Theorem sweep_removes_exactly_expired (now : Z) (st : Store) :
  JsMap.wf st = true ->
  DATA_EXPIRY = 10 * 60 * 1000 /\
  (forall k d, JsMap.get k st = Some d -> now - lastUpdated d > DATA_EXPIRY ->
               JsMap.get k (cleanupExpiredData now st) = None) /\
  (forall k d, JsMap.get k st = Some d -> now - lastUpdated d <= DATA_EXPIRY ->
               JsMap.get k (cleanupExpiredData now st) = Some d) /\
  (forall k, JsMap.get k st = None ->
             JsMap.get k (cleanupExpiredData now st) = None) /\
  cleanupExpiredData now st = filter (fun kv => negb (expired now (snd kv))) st.
Proof.
  intros Hwf. split; [reflexivity|].
  rewrite (cleanup_filter now st Hwf).
  repeat split.
  - intros k d Hget Hold. rewrite get_filter, Hget by exact Hwf. simpl.
    apply expired_spec in Hold. now rewrite Hold.
  - intros k d Hget Hlive. rewrite get_filter, Hget by exact Hwf. simpl.
    apply not_expired_spec in Hlive. now rewrite Hlive.
  - intros k Hget. now rewrite get_filter, Hget by exact Hwf.
Qed.

Lemma sweep_removes_exactly_expired_witness :
  JsMap.wf sample_store = true /\
  JsMap.get "normal-apple-12345678" (cleanupExpiredData 700000 sample_store) = None /\
  JsMap.get "mirage-banana-12345678" (cleanupExpiredData 700000 sample_store)
  = JsMap.get "mirage-banana-12345678" sample_store.
Proof.
  destruct (sweep_removes_exactly_expired 700000 sample_store eq_refl)
    as (_ & Hgone & Hkept & _ & _).
  split; [reflexivity|]. split.
  - apply (Hgone _ (snd (sample_entry "normal-apple-12345678" "Apple (Normal)" 100 0 0)));
      [reflexivity | vm_compute; reflexivity].
  - apply (Hkept _ (snd (sample_entry "mirage-banana-12345678" "Banana (Mirage)" 200 500000 0)));
      [reflexivity | vm_compute; discriminate].
Defined.

(** C2. A GET that passes [authorize] sweeps the store with its reading
    [now] of the clock before it looks anything up, and no GET response, by
    id or of the whole list, carries an entry with
    [now - lastUpdated > DATA_EXPIRY]. *)
Theorem get_sweeps_before_answering (now t : Z) (request : Request) (st : Store) :
  (authorize request "GET" = None ->
   snd (GET now t request st) = cleanupExpiredData now st) /\
  (forall d, In d (response_entries (fst (GET now t request st))) ->
             now - lastUpdated d <= DATA_EXPIRY).
Proof.
  unfold GET. destruct (authorize request "GET") as [err|] eqn:Ha.
  - split; [discriminate|]. intros d Hin.
    unfold authorize in Ha.
    destruct ((_ =? _)%string && _); [discriminate|].
    destruct (authorization request) as [h|].
    + destruct (_ || _); [|discriminate]. injection Ha as <-. destruct Hin.
    + injection Ha as <-. destruct Hin.
  - assert (Hall : forall d, In d (JsMap.values (cleanupExpiredData now st)) ->
                             now - lastUpdated d <= DATA_EXPIRY).
    { intros d Hin. unfold JsMap.values in Hin. apply in_map_iff in Hin.
      destruct Hin as [kv [<- Hin]]. apply cleanup_In in Hin.
      now apply not_expired_spec. }
    assert (Hone : forall k d, JsMap.get k (cleanupExpiredData now st) = Some d ->
                               now - lastUpdated d <= DATA_EXPIRY).
    { intros k d Hget. apply get_In in Hget. apply cleanup_In in Hget.
      now apply not_expired_spec. }
    destruct (query_id request) as [k|]; simpl.
    + destruct (k =? "")%string; simpl.
      * split; [reflexivity | exact Hall].
      * destruct (JsMap.get k (cleanupExpiredData now st)) as [d0|] eqn:Hg; simpl.
        -- split; [reflexivity|]. intros d [<-|[]]. eapply Hone; eauto.
        -- split; [reflexivity|]. intros d [].
    + split; [reflexivity | exact Hall].
Qed.

Lemma get_sweeps_before_answering_witness :
  authorize (public_get None) "GET" = None /\
  snd (GET 700000 700001 (public_get None) sample_store)
  = cleanupExpiredData 700000 sample_store /\
  In (snd (sample_entry "mirage-banana-12345678" "Banana (Mirage)" 200 500000 0))
     (response_entries (fst (GET 700000 700001 (public_get None) sample_store))) /\
  700000 - 500000 <= DATA_EXPIRY.
Proof.
  destruct (get_sweeps_before_answering 700000 700001 (public_get None) sample_store)
    as [Hsweep Hlive].
  split; [reflexivity|]. split; [apply Hsweep; reflexivity|].
  assert (Hin : In (snd (sample_entry "mirage-banana-12345678" "Banana (Mirage)" 200 500000 0))
     (response_entries (fst (GET 700000 700001 (public_get None) sample_store))))
    by (vm_compute; left; reflexivity).
  split; [exact Hin | exact (Hlive _ Hin)].
Defined.

(** ** Relations that the handlers respect *)

Section Respect.

Variable R : Store -> Store -> Prop.
Hypothesis R_refl : forall st, R st st.
Hypothesis R_trans : forall a b c, R a b -> R b c -> R a c.

Lemma respects_ret {A} (a : A) : respects R (Try.ret a).
Proof. intros st. apply R_refl. Qed.

Lemma respects_lift {A} (o : option A) : respects R (Try.lift o).
Proof. intros st. apply R_refl. Qed.

Lemma respects_entries : respects R Try.entries.
Proof. intros st. apply R_refl. Qed.

Lemma respects_bind {A B} (c : Try.M A) (k : A -> Try.M B) :
  respects R c -> (forall a, respects R (k a)) -> respects R (Try.bind c k).
Proof.
  intros Hc Hk st. unfold Try.bind. specialize (Hc st).
  destruct (c st) as [[a|] st']; simpl in *.
  - eapply R_trans; [exact Hc | apply Hk].
  - exact Hc.
Qed.

Lemma respects_for_each {A} (body : A -> Try.M unit) (l : list A) :
  (forall x, respects R (body x)) -> respects R (Try.for_each body l).
Proof.
  intros Hb. induction l as [|x l IH]; simpl.
  - apply respects_ret.
  - apply respects_bind; [apply Hb | intros _; exact IH].
Qed.

Lemma respects_catch (block : Try.M Response) (handler : Response) (st : Store) :
  respects R block -> R st (snd (Try.catch block handler st)).
Proof.
  intros Hb. unfold Try.catch. specialize (Hb st).
  destruct (block st) as [[r|] st']; exact Hb.
Qed.

Ltac respect :=
  repeat first
    [ apply respects_ret | apply respects_lift | apply respects_entries
    | apply respects_bind; [|intros ?]
    | match goal with
      | |- respects _ (if ?b then _ else _) => destruct b
      | |- respects _ (match ?o with Some _ => _ | None => _ end) => destruct o
      | |- respects _ (let '(_, _) := ?p in _) => destruct p
      end ].

Lemma respects_process_fruit tag variant now sessionId fruit :
  (forall k d, id d = k -> createdAt d = now -> lastUpdated d = now ->
               respects R (Try.set k d)) ->
  respects R (process_fruit tag variant now sessionId fruit).
Proof.
  intros Hset. unfold process_fruit. respect. now apply Hset.
Qed.

Lemma respects_process_stock tag variant now sessionId stock :
  (forall k d, id d = k -> createdAt d = now -> lastUpdated d = now ->
               respects R (Try.set k d)) ->
  respects R (process_stock tag variant now sessionId stock).
Proof.
  intros Hset. unfold process_stock.
  destruct stock; try apply respects_ret.
  apply respects_for_each. intros x. now apply respects_process_fruit.
Qed.

Lemma respects_POST t1 t2 request st :
  (forall t k d, t = t1 \/ t = t2 -> id d = k -> createdAt d = t -> lastUpdated d = t ->
                 respects R (Try.set k d)) ->
  R st (snd (POST t1 t2 request st)).
Proof.
  intros Hset. unfold POST. destruct (authorize request "POST"); [apply R_refl|].
  apply respects_catch. respect.
  - apply respects_process_stock. intros k d. apply Hset. now left.
  - apply respects_process_stock. intros k d. apply Hset. now left.
  - apply (Hset t2); auto.
Qed.

Lemma respects_delete_matching sessionId entries n :
  (forall k, respects R (Try.delete k)) ->
  respects R (delete_matching sessionId entries n).
Proof.
  intros Hdel. revert n. induction entries as [|[key d] rest IH]; intros n; simpl.
  - apply respects_ret.
  - respect; [apply Hdel | apply IH | apply IH].
Qed.

Lemma respects_DELETE request st :
  (forall k, respects R (Try.delete k)) ->
  R st (snd (DELETE request st)).
Proof.
  intros Hdel. unfold DELETE. destruct (authorize request "DELETE"); [apply R_refl|].
  assert (Hno : R st (snd (match session_cleanup request st with
                           | (Some (Some response), st') => (response, st')
                           | (_, st') => (bad_request "Stock ID is required", st')
                           end))).
  { assert (Hs : respects R (session_cleanup request)).
    { unfold session_cleanup. respect. now apply respects_delete_matching. }
    specialize (Hs st). destruct (session_cleanup request st) as [[[r|]|] st']; exact Hs. }
  destruct (query_id request) as [k|]; [|exact Hno].
  destruct (k =? "")%string; [exact Hno|].
  destruct (JsMap.get k st); simpl; [apply (Hdel k st) | apply R_refl].
Qed.

End Respect.

(** ** What each handler does to the store *)

Ltac crunch_handler :=
  unfold Try.catch, Try.bind, Try.lift, Try.ret, Try.entries, Try.set;
  repeat match goal with
         | |- context [match ?x with _ => _ end] =>
             lazymatch x with
             | context [match _ with _ => _ end] => fail
             | _ => destruct x eqn:?
             end; simpl
         end.

Lemma get_by_value_Some (v : JsValue) (st : Store) (k : string) (d : StockData) :
  get_by_value v st = Some (k, d) -> v = JStr k /\ JsMap.get k st = Some d.
Proof.
  destruct v; simpl; try discriminate.
  destruct (JsMap.get s st) as [d0|] eqn:Hg; simpl; [|discriminate].
  intros [= <- <-]. now split.
Qed.

(** PUT leaves the store as it is or replaces one present entry by a
    record that keeps its [id] and [createdAt]. *)
Lemma PUT_store (t : Z) (request : Request) (st : Store) :
  snd (PUT t request st) = st \/
  exists k old new,
    JsMap.get k st = Some old /\
    snd (PUT t request st) = JsMap.set k new st /\
    id new = id old /\ createdAt new = createdAt old /\ lastUpdated new = t.
Proof.
  unfold PUT. destruct (authorize request "PUT"); [now left|].
  crunch_handler; try (now left).
  right.
  match goal with
  | H : get_by_value _ st = Some (?k, ?old) |- _ =>
      apply get_by_value_Some in H; destruct H as [_ H]; exists k, old
  end.
  eexists. repeat split; eauto.
Qed.

(** PATCH leaves the store as it is or replaces one present entry by the
    same record with [lastUpdated] set to [t]. *)
Lemma PATCH_store (t : Z) (request : Request) (st : Store) :
  snd (PATCH t request st) = st \/
  exists k old,
    JsMap.get k st = Some old /\
    snd (PATCH t request st)
    = JsMap.set k {| id := id old; name := name old; price := price old;
                     quantity := quantity old; lastUpdated := t;
                     createdAt := createdAt old |} st.
Proof.
  unfold PATCH. destruct (authorize request "PATCH"); [now left|].
  crunch_handler; try (now left).
  right.
  match goal with
  | H : get_by_value _ st = Some (?k, ?old) |- _ =>
      apply get_by_value_Some in H; destruct H as [_ H]; exists k, old
  end.
  split; eauto.
Qed.

Lemma GET_store (now t : Z) (request : Request) (st : Store) :
  snd (GET now t request st) = st \/
  snd (GET now t request st) = cleanupExpiredData now st.
Proof.
  unfold GET. destruct (authorize request "GET"); [now left|]. right.
  destruct (query_id request) as [k|]; [|reflexivity].
  destruct (k =? "")%string; [reflexivity|].
  destruct (JsMap.get k _); reflexivity.
Qed.

(** *** The store stays a map *)

Lemma wf_step (st : Store) (ev : Event) :
  JsMap.wf st = true -> JsMap.wf (step st ev) = true.
Proof.
  assert (Hrefl : forall s, keeps_wf s s) by (intros s H; exact H).
  assert (Htrans : forall a b c, keeps_wf a b -> keeps_wf b c -> keeps_wf a c)
    by (unfold keeps_wf; auto).
  destruct ev as [now t r|t1 t2 r|t r|r|t r|now]; simpl.
  - destruct (GET_store now t r st) as [->| ->]; [trivial | apply wf_cleanup].
  - apply (respects_POST keeps_wf Hrefl Htrans).
    intros _ k d _ _ _ _ s. exact (wf_set k d s).
  - destruct (PUT_store t r st) as [->|(k & old & new & _ & -> & _)];
      [trivial | apply wf_set].
  - apply (respects_DELETE keeps_wf Hrefl Htrans). intros k s. exact (wf_delete k s).
  - destruct (PATCH_store t r st) as [->|(k & old & _ & ->)];
      [trivial | apply wf_set].
  - apply wf_cleanup.
Qed.

Lemma wf_run (evs : list Event) (st : Store) :
  JsMap.wf st = true -> JsMap.wf (run evs st) = true.
Proof.
  revert st. induction evs as [|ev evs IH]; intros st Hwf; simpl; [exact Hwf|].
  apply IH. now apply wf_step.
Qed.

(** *** Entries are stored under their ids *)

Lemma keyed_set (k : string) (d : StockData) (st : Store) :
  id d = k -> keyed st = true -> keyed (JsMap.set k d st) = true.
Proof.
  intros Hid. unfold keyed. induction st as [|[k' d'] st IH]; simpl.
  - intros _. rewrite Hid, String.eqb_refl. reflexivity.
  - intros H. apply andb_true_iff in H. destruct H as [Hk Hst].
    destruct (k' =? k)%string; simpl.
    + now rewrite Hid, String.eqb_refl.
    + rewrite Hk. now apply IH.
Qed.

Lemma keyed_filter (f : string * StockData -> bool) (st : Store) :
  keyed st = true -> keyed (filter f st) = true.
Proof.
  unfold keyed. rewrite !forallb_forall. intros H kv Hin.
  apply filter_In in Hin. now apply H.
Qed.

Lemma keyed_get (k : string) (d : StockData) (st : Store) :
  keyed st = true -> JsMap.get k st = Some d -> id d = k.
Proof.
  unfold keyed. rewrite forallb_forall. intros H Hg.
  apply get_In in Hg. specialize (H _ Hg). simpl in H.
  apply String.eqb_eq in H. congruence.
Qed.

Lemma keyed_step (st : Store) (ev : Event) :
  keyed st = true -> keyed (step st ev) = true.
Proof.
  assert (Hrefl : forall s, keeps_keyed s s) by (intros s H; exact H).
  assert (Htrans : forall a b c, keeps_keyed a b -> keeps_keyed b c -> keeps_keyed a c)
    by (unfold keeps_keyed; auto).
  assert (Hsweep : forall now, keyed st = true -> keyed (cleanupExpiredData now st) = true).
  { intros now H. unfold cleanupExpiredData. rewrite cleanup_loop. now apply keyed_filter. }
  destruct ev as [now t r|t1 t2 r|t r|r|t r|now]; simpl.
  - destruct (GET_store now t r st) as [->| ->]; [trivial | apply Hsweep].
  - apply (respects_POST keeps_keyed Hrefl Htrans).
    intros _ k d _ Hid _ _ s. exact (keyed_set k d s Hid).
  - intros Hk.
    destruct (PUT_store t r st) as [->|(k & old & new & Hold & -> & Hid & _)];
      [exact Hk|].
    apply keyed_set; [|exact Hk]. rewrite Hid. now apply (keyed_get k old st).
  - apply (respects_DELETE keeps_keyed Hrefl Htrans). intros k s.
    exact (keyed_filter _ s).
  - intros Hk.
    destruct (PATCH_store t r st) as [->|(k & old & Hold & ->)]; [exact Hk|].
    apply keyed_set; [|exact Hk]. simpl. now apply (keyed_get k old st).
  - apply Hsweep.
Qed.

(** Every store that the server reaches from the empty one is a map whose
    entries are stored under their ids. *)
Lemma reachable_store (evs : list Event) :
  JsMap.wf (run evs JsMap.empty) = true /\ keyed (run evs JsMap.empty) = true.
Proof.
  split; [now apply wf_run|].
  assert (H : forall st, keyed st = true -> keyed (run evs st) = true).
  { induction evs as [|ev evs IH]; intros st Hk; simpl; [exact Hk|].
    apply IH. now apply keyed_step. }
  now apply H.
Qed.

(** *** Events other than POST create nothing *)

(** An entry found after an event that is not a POST was there before it,
    with the same [createdAt]. *)
Lemma step_no_post (st : Store) (ev : Event) (k : string) (d' : StockData) :
  is_post ev = false ->
  JsMap.wf st = true ->
  JsMap.get k (step st ev) = Some d' ->
  exists d, JsMap.get k st = Some d /\ createdAt d' = createdAt d.
Proof.
  intros Hev Hwf.
  assert (Hsweep : forall now, JsMap.get k (cleanupExpiredData now st) = Some d' ->
                               exists d, JsMap.get k st = Some d /\ createdAt d' = createdAt d).
  { intros now Hg. apply get_In in Hg. apply cleanup_In in Hg. destruct Hg as [Hin _].
    exists d'. split; [|reflexivity]. apply In_get; [now apply wf_NoDup | exact Hin]. }
  destruct ev as [now t r|t1 t2 r|t r|r|t r|now]; simpl; try discriminate.
  - destruct (GET_store now t r st) as [->| ->]; [eauto | apply Hsweep].
  - destruct (PUT_store t r st) as [->|(k0 & old & new & Hold & -> & _ & Hc & _)];
      [eauto|].
    rewrite get_set. destruct (String.eqb_spec k0 k) as [->|Hne].
    + intros [= <-]. eauto.
    + eauto.
  - intros Hg.
    assert (Hin : In (k, d') st).
    { apply get_In in Hg. revert Hg.
      apply (respects_DELETE (fun s s' => In (k, d') s' -> In (k, d') s)); auto.
      intros k0 s Hin. unfold Try.delete, JsMap.delete in Hin. simpl in Hin.
      now apply filter_In in Hin. }
    exists d'. split; [|reflexivity]. apply In_get; [now apply wf_NoDup | exact Hin].
  - destruct (PATCH_store t r st) as [->|(k0 & old & Hold & ->)]; [eauto|].
    rewrite get_set. destruct (String.eqb_spec k0 k) as [->|Hne].
    + intros [= <-]. eauto.
    + eauto.
  - apply Hsweep.
Qed.

Lemma run_no_post (evs : list Event) (st : Store) (k : string) (d' : StockData) :
  forallb (fun ev => negb (is_post ev)) evs = true ->
  JsMap.wf st = true ->
  JsMap.get k (run evs st) = Some d' ->
  exists d, JsMap.get k st = Some d /\ createdAt d' = createdAt d.
Proof.
  revert st. induction evs as [|ev evs IH]; intros st Hevs Hwf Hg; simpl in *.
  - eauto.
  - apply andb_true_iff in Hevs. destruct Hevs as [Hev Hevs].
    apply negb_true_iff in Hev.
    destruct (IH (step st ev) Hevs (wf_step st ev Hwf) Hg) as (d1 & Hg1 & Hc1).
    destruct (step_no_post st ev k d1 Hev Hwf Hg1) as (d & Hg0 & Hc).
    exists d. split; [exact Hg0 | congruence].
Qed.

(** *** What a POST writes *)

Lemma POST_kept_or_written (t1 t2 : Z) (request : Request) (st : Store) :
  kept_or_written t1 t2 st (snd (POST t1 t2 request st)).
Proof.
  apply respects_POST.
  - intros s k d' H. now left.
  - intros a b c Hab Hbc k d' Hg.
    destruct (Hbc k d' Hg) as [Hb|Hw]; [now apply Hab | now right].
  - intros t k d Ht _ Hc Hl s k' d'. unfold Try.set. simpl. rewrite get_set.
    destruct (k =? k')%string; [|now left].
    intros [= <-]. right. split; [congruence|]. destruct Ht; subst; auto.
Qed.

(** ** createdAt *)

(** C1, as the claim states it, fails: posting the same session batch a
    second time replaces the entry of the derived id, and its [createdAt]
    moves from the time of the first POST to that of the second. *)
Lemma batch_upsert_resets_createdAt :
  option_map createdAt (JsMap.get "normal-apple-12345678" apple_posted_once)
  = Some 1000 /\
  option_map createdAt (JsMap.get "normal-apple-12345678" apple_posted_twice)
  = Some 2000 /\
  ~ preserves_createdAt (EvPOST 2000 2000 apple_batch).
Proof.
  split; [reflexivity|]. split; [reflexivity|].
  intros H.
  specialize (H (snd (POST 1000 1000 apple_batch JsMap.empty))
                "normal-apple-12345678"
                (snd (batch_entry "normal" " (Normal)" 1000 "12345678" "Apple" 100))
                (snd (batch_entry "normal" " (Normal)" 2000 "12345678" "Apple" 100))
                eq_refl eq_refl eq_refl).
  discriminate H.
Qed.

(** C1, amended.  No event other than a POST changes the [createdAt] of an
    entry that it keeps, nor does a sequence of such events: a PUT, a PATCH,
    a GET, a DELETE, a sweep of the timer.  A POST leaves every entry as it
    was or writes it anew, with [createdAt] and [lastUpdated] at one of the
    two readings of the clock of that POST. *)
Theorem createdAt_changed_only_by_post :
  (forall ev, is_post ev = false -> preserves_createdAt ev) /\
  (forall evs st k d d',
     forallb (fun ev => negb (is_post ev)) evs = true ->
     JsMap.wf st = true ->
     JsMap.get k st = Some d ->
     JsMap.get k (run evs st) = Some d' ->
     createdAt d' = createdAt d) /\
  (forall t1 t2 request st,
     kept_or_written t1 t2 st (snd (POST t1 t2 request st))).
Proof.
  split; [|split].
  - intros ev Hev st k d d' Hwf Hg Hg'.
    destruct (step_no_post st ev k d' Hev Hwf Hg') as (d0 & Hg0 & Hc). congruence.
  - intros evs st k d d' Hevs Hwf Hg Hg'.
    destruct (run_no_post evs st k d' Hevs Hwf Hg') as (d0 & Hg0 & Hc). congruence.
  - intros. apply POST_kept_or_written.
Qed.

Lemma createdAt_changed_only_by_post_witness :
  forallb (fun ev => negb (is_post ev)) banana_trace = true /\
  JsMap.wf sample_store = true /\
  option_map lastUpdated (JsMap.get "mirage-banana-12345678" (run banana_trace sample_store))
  = Some 700001 /\
  option_map createdAt (JsMap.get "mirage-banana-12345678" (run banana_trace sample_store))
  = Some 0.
Proof.
  pose (evs := banana_trace).
  destruct createdAt_changed_only_by_post as (_ & Hrun & _).
  split; [reflexivity|]. split; [reflexivity|]. split; [reflexivity|].
  destruct (JsMap.get "mirage-banana-12345678" (run banana_trace sample_store))
    as [d'|] eqn:Hg.
  - simpl. f_equal.
    apply (Hrun evs sample_store "mirage-banana-12345678"
             (snd (sample_entry "mirage-banana-12345678" "Banana (Mirage)" 200 500000 0)) d');
      [reflexivity | reflexivity | reflexivity | exact Hg].
  - vm_compute in Hg. discriminate Hg.
Defined.

(** ** Strings *)

Lemma substring_whole (s : string) : substring 0 (String.length s) s = s.
Proof. induction s as [|c s IH]; simpl; [|rewrite IH]; reflexivity. Qed.

Lemma length_append (a b : string) :
  String.length (a ++ b) = (String.length a + String.length b)%nat.
Proof. induction a as [|c a IH]; simpl; [|rewrite IH]; reflexivity. Qed.

(** The last [n] code units of a string that ends in [n] code units [s]. *)
Lemma slice_last_append (a s : string) :
  slice_last (String.length s) (a ++ s) = s.
Proof.
  unfold slice_last. rewrite length_append.
  replace (String.length a + String.length s - String.length s)%nat
    with (String.length a) by lia.
  induction a as [|c a IH]; simpl.
  - apply substring_whole.
  - exact IH.
Qed.

Lemma append_assoc (a b c : string) : (a ++ b) ++ c = a ++ (b ++ c).
Proof. induction a as [|x a IH]; simpl; [|rewrite IH]; reflexivity. Qed.

(** The id of a batch entry ends in the suffix of the session. *)
Lemma batch_key_suffix (tag x suffix : string) :
  slice_last (String.length suffix) (tag ++ "-" ++ x ++ "-" ++ suffix) = suffix.
Proof.
  replace (tag ++ "-" ++ x ++ "-" ++ suffix) with ((tag ++ "-" ++ x ++ "-") ++ suffix)
    by now rewrite !append_assoc.
  apply slice_last_append.
Qed.

Lemma truthy_JStr (s : string) : s <> "" -> truthy (JStr s) = true.
Proof. intros H. simpl. apply negb_true_iff. now apply String.eqb_neq. Qed.

(** ** Session batches *)

(** An element with a non-empty string for a name and a number for a price
    is stored, under a string sessionId. *)
Lemma process_fruit_valid tag variant now sid fr n p st :
  get_prop fr "name" = Some (JStr n) -> n <> "" ->
  get_prop fr "price" = Some (JNum p) ->
  process_fruit tag variant now (JStr sid) fr st
  = (Some tt,
     JsMap.set (fst (batch_entry tag variant now (slice_last 8 sid) n p))
               (snd (batch_entry tag variant now (slice_last 8 sid) n p)) st).
Proof.
  intros Hn Hne Hp. unfold process_fruit, Try.bind, Try.lift. rewrite Hn.
  rewrite (truthy_JStr n Hne), Hp. reflexivity.
Qed.

(** An element that is not [null] and has no truthy name, or no number for a
    price, is passed over. *)
Lemma process_fruit_skipped tag variant now sessionId fr v st :
  get_prop fr "name" = Some v ->
  truthy v = false \/
  (exists pv, get_prop fr "price" = Some pv /\ is_number pv = false) ->
  process_fruit tag variant now sessionId fr st = (Some tt, st).
Proof.
  intros Hn Hbad. unfold process_fruit, Try.bind, Try.lift. rewrite Hn.
  destruct (truthy v) eqn:Ht.
  - destruct Hbad as [?|(pv & Hp & Hnum)]; [discriminate|].
    rewrite Hp, Hnum. reflexivity.
  - reflexivity.
Qed.

Lemma replace_spaces_no_space (s : string) : no_space (replace_spaces s) = true.
Proof.
  unfold no_space. induction s as [|c s IH]; [reflexivity|].
  cbn [replace_spaces]. destruct (is_space c) eqn:Ec.
  - destruct s as [|c' s']; [reflexivity|].
    destruct (is_space c') eqn:Ec'; [exact IH|].
    cbn [list_ascii_of_string forallb]. rewrite IH. reflexivity.
  - cbn [list_ascii_of_string forallb]. now rewrite Ec, IH.
Qed.

Lemma replace_spaces_fixed (s : string) : no_space s = true -> replace_spaces s = s.
Proof.
  unfold no_space. induction s as [|c s IH]; [reflexivity|].
  cbn [list_ascii_of_string forallb replace_spaces]. intros H.
  apply andb_true_iff in H. destruct H as [Hc Hs].
  apply negb_true_iff in Hc. rewrite Hc. f_equal. now apply IH.
Qed.

Lemma lower_unit_not_upper (c : ascii) : is_upper (lower_unit c) = false.
Proof. destruct c as [[] [] [] [] [] [] [] []]; reflexivity. Qed.

Lemma lower_unit_fixed (c : ascii) : is_upper c = false -> lower_unit c = c.
Proof. destruct c as [[] [] [] [] [] [] [] []]; intros H; try reflexivity; discriminate H. Qed.

Lemma toLowerCase_no_upper (s : string) : no_upper (toLowerCase s) = true.
Proof.
  unfold no_upper. induction s as [|c s IH]; [reflexivity|].
  cbn [toLowerCase list_ascii_of_string forallb].
  now rewrite lower_unit_not_upper, IH.
Qed.

Lemma toLowerCase_fixed (s : string) : no_upper s = true -> toLowerCase s = s.
Proof.
  unfold no_upper. induction s as [|c s IH]; [reflexivity|].
  cbn [toLowerCase list_ascii_of_string forallb]. intros H.
  apply andb_true_iff in H. destruct H as [Hc Hs]. apply negb_true_iff in Hc.
  now rewrite (lower_unit_fixed c Hc), (IH Hs).
Qed.

(** Dashing brings in no letter. *)
Lemma replace_spaces_no_upper (s : string) :
  no_upper s = true -> no_upper (replace_spaces s) = true.
Proof.
  unfold no_upper. induction s as [|c s IH]; [reflexivity|].
  cbn [list_ascii_of_string forallb]. intros H.
  apply andb_true_iff in H. destruct H as [Hc Hs]. specialize (IH Hs).
  cbn [replace_spaces]. destruct (is_space c).
  - destruct s as [|c' s']; [reflexivity|].
    destruct (is_space c'); [exact IH|].
    cbn [list_ascii_of_string forallb]. now rewrite IH.
  - cbn [list_ascii_of_string forallb]. now rewrite Hc, IH.
Qed.

(** What an authorised batch of one normal and one mirage element stores. *)
Lemma two_fruit_batch_post (t1 t2 : Z) (s n1 n2 : string) (p1 p2 : Z) (st : Store) :
  s <> "" -> n1 <> "" -> n2 <> "" ->
  status (fst (POST t1 t2 (authorized (Some (batch s [fruit n1 p1] [fruit n2 p2]))) st))
  = 201 /\
  snd (POST t1 t2 (authorized (Some (batch s [fruit n1 p1] [fruit n2 p2]))) st)
  = JsMap.set (fst (batch_entry "mirage" " (Mirage)" t1 (slice_last 8 s) n2 p2))
              (snd (batch_entry "mirage" " (Mirage)" t1 (slice_last 8 s) n2 p2))
      (JsMap.set (fst (batch_entry "normal" " (Normal)" t1 (slice_last 8 s) n1 p1))
                 (snd (batch_entry "normal" " (Normal)" t1 (slice_last 8 s) n1 p1)) st).
Proof.
  intros Hs H1 H2.
  assert (E : (s =? "")%string = false) by now apply String.eqb_neq.
  unfold POST, authorized, batch. simpl.
  unfold Try.catch, Try.bind, Try.lift, Try.ret. simpl.
  rewrite E. simpl. unfold Try.bind, Try.ret.
  rewrite (process_fruit_valid _ _ _ _ _ n1 p1) by (reflexivity || assumption).
  cbv beta iota.
  rewrite (process_fruit_valid _ _ _ _ _ n2 p2) by (reflexivity || assumption).
  split; reflexivity.
Qed.

(** C4. A session batch with sessionId ["abcdefgh12345678"] and one valid
    element in each of the two arrays, posted into the empty store, is
    answered 201 and leaves exactly two entries, the normal one first: each
    with quantity 1, each under the id made of its category, the lowered
    name with its white space turned into dashes, and ["12345678"], the last
    eight characters of the sessionId, and each named by the element's name
    followed by its category's variant.  The part of an id that comes from
    the name holds no upper-case letter and no white space, and is the name
    itself when the name holds neither.  For the elements Apple at 100 and
    Banana at 200 the two ids are [normal-apple-12345678] and
    [mirage-banana-12345678]. *)
Theorem batch_post_creates_two_entries (n1 n2 : string) (p1 p2 t1 t2 : Z) :
  n1 <> "" -> n2 <> "" ->
  let request :=
    authorized (Some (batch "abcdefgh12345678" [fruit n1 p1] [fruit n2 p2])) in
  let kA := "normal-" ++ replace_spaces (toLowerCase n1) ++ "-12345678" in
  let kB := "mirage-" ++ replace_spaces (toLowerCase n2) ++ "-12345678" in
  status (fst (POST t1 t2 request JsMap.empty)) = 201 /\
  snd (POST t1 t2 request JsMap.empty)
  = [ (kA, {| id := kA; name := JStr (n1 ++ " (Normal)"); price := JNum p1;
              quantity := JNum 1; lastUpdated := t1; createdAt := t1 |});
      (kB, {| id := kB; name := JStr (n2 ++ " (Mirage)"); price := JNum p2;
              quantity := JNum 1; lastUpdated := t1; createdAt := t1 |}) ] /\
  slice_last 8 kA = slice_last 8 "abcdefgh12345678" /\
  slice_last 8 kB = slice_last 8 "abcdefgh12345678" /\
  no_upper (replace_spaces (toLowerCase n1)) = true /\
  no_space (replace_spaces (toLowerCase n1)) = true /\
  no_upper (replace_spaces (toLowerCase n2)) = true /\
  no_space (replace_spaces (toLowerCase n2)) = true /\
  (no_upper n1 = true -> no_space n1 = true -> kA = "normal-" ++ n1 ++ "-12345678") /\
  (no_upper n2 = true -> no_space n2 = true -> kB = "mirage-" ++ n2 ++ "-12345678") /\
  snd (POST t1 t2 apple_banana_batch JsMap.empty)
  = [ ("normal-apple-12345678",
       {| id := "normal-apple-12345678"; name := JStr "Apple (Normal)";
          price := JNum 100; quantity := JNum 1;
          lastUpdated := t1; createdAt := t1 |});
      ("mirage-banana-12345678",
       {| id := "mirage-banana-12345678"; name := JStr "Banana (Mirage)";
          price := JNum 200; quantity := JNum 1;
          lastUpdated := t1; createdAt := t1 |}) ].
Proof.
  intros H1 H2 request kA kB.
  assert (E1 : (n1 =? "")%string = false) by now apply String.eqb_neq.
  assert (E2 : (n2 =? "")%string = false) by now apply String.eqb_neq.
  assert (HP : POST t1 t2 request JsMap.empty
               = ({| status := 201;
                     payload := PBatch "Blox Fruits stock updated successfully"
                                  (JStr "abcdefgh12345678") JUndefined JUndefined
                                  (JNum 1) (JNum 1) (JNum 0) t1 |},
                  [ (kA, {| id := kA; name := JStr (n1 ++ " (Normal)"); price := JNum p1;
                            quantity := JNum 1; lastUpdated := t1; createdAt := t1 |});
                    (kB, {| id := kB; name := JStr (n2 ++ " (Mirage)"); price := JNum p2;
                            quantity := JNum 1; lastUpdated := t1; createdAt := t1 |}) ])).
  { unfold POST, request, authorized, batch. simpl.
    unfold Try.catch, Try.bind, Try.lift, Try.ret. simpl.
    unfold Try.bind, Try.ret.
    rewrite (process_fruit_valid _ _ _ _ _ n1 p1) by (reflexivity || assumption).
    cbv beta iota.
    rewrite (process_fruit_valid _ _ _ _ _ n2 p2) by (reflexivity || assumption).
    reflexivity. }
  rewrite HP. cbn [fst snd status].
  split; [reflexivity|]. split; [reflexivity|].
  split; [exact (batch_key_suffix "normal" (replace_spaces (toLowerCase n1)) "12345678")|].
  split; [exact (batch_key_suffix "mirage" (replace_spaces (toLowerCase n2)) "12345678")|].
  split; [apply replace_spaces_no_upper, toLowerCase_no_upper|].
  split; [apply replace_spaces_no_space|].
  split; [apply replace_spaces_no_upper, toLowerCase_no_upper|].
  split; [apply replace_spaces_no_space|].
  split; [|split].
  - intros Hu Hs. unfold kA. now rewrite (toLowerCase_fixed n1 Hu), (replace_spaces_fixed n1 Hs).
  - intros Hu Hs. unfold kB. now rewrite (toLowerCase_fixed n2 Hu), (replace_spaces_fixed n2 Hs).
  - assert (Hs : "abcdefgh12345678" <> "") by discriminate.
    assert (Ha : "Apple" <> "") by discriminate.
    assert (Hb : "Banana" <> "") by discriminate.
    destruct (two_fruit_batch_post t1 t2 "abcdefgh12345678" "Apple" "Banana" 100 200
                JsMap.empty Hs Ha Hb) as (_ & Hstore).
    exact Hstore.
Qed.

Lemma batch_post_creates_two_entries_witness :
  "Apple" <> "" /\ "Dark  Blade" <> "" /\
  snd (POST 1000 1001
         (authorized (Some (batch "abcdefgh12345678"
                                  [fruit "Apple" 100] [fruit "Dark  Blade" 200])))
         JsMap.empty)
  = [ ("normal-apple-12345678",
       {| id := "normal-apple-12345678"; name := JStr "Apple (Normal)";
          price := JNum 100; quantity := JNum 1;
          lastUpdated := 1000; createdAt := 1000 |});
      ("mirage-dark-blade-12345678",
       {| id := "mirage-dark-blade-12345678"; name := JStr "Dark  Blade (Mirage)";
          price := JNum 200; quantity := JNum 1;
          lastUpdated := 1000; createdAt := 1000 |}) ].
Proof.
  assert (Ha : "Apple" <> "") by discriminate.
  assert (Hb : "Dark  Blade" <> "") by discriminate.
  destruct (batch_post_creates_two_entries "Apple" "Dark  Blade" 100 200 1000 1001 Ha Hb)
    as (_ & Hstore & _).
  split; [exact Ha|]. split; [exact Hb|]. exact Hstore.
Defined.

(** ** Session cleanup *)

(** The loop of the cleanup, for a string sessionId, over any list of
    entries and on any store. *)
Lemma delete_matching_string (s : string) (l : list (string * StockData))
                             (n : nat) (acc : Store) :
  delete_matching (JStr s) l n acc
  = (Some (n + List.length (filter (of_session (slice_last 8 s)) l))%nat,
     filter (fun kv => negb (existsb (fun kv' => (fst kv' =? fst kv)%string
                                                 && of_session (slice_last 8 s) kv') l))
            acc).
Proof.
  revert n acc. induction l as [|[key d] rest IH]; intros n acc; simpl.
  - unfold Try.ret. now rewrite Nat.add_0_r, filter_true.
  - unfold Try.bind, Try.lift, Try.delete. simpl. unfold of_session at 1 3. simpl.
    destruct (includes key (slice_last 8 s)) eqn:E.
    + rewrite IH. simpl. f_equal; [f_equal; lia|].
      unfold JsMap.delete. rewrite filter_filter. apply filter_ext. intros kv.
      change (of_session (slice_last 8 s) (key, d)) with (includes key (slice_last 8 s)).
      now rewrite E, andb_true_r, negb_orb, String.eqb_sym.
    + rewrite IH. f_equal. apply filter_ext. intros kv.
      change (of_session (slice_last 8 s) (key, d)) with (includes key (slice_last 8 s)).
      now rewrite E, andb_false_r.
Qed.

Lemma of_session_self (suffix : string) (st : Store) (kv : string * StockData) :
  In kv st ->
  existsb (fun kv' => (fst kv' =? fst kv)%string && of_session suffix kv') st
  = of_session suffix kv.
Proof.
  intros Hin. destruct (of_session suffix kv) eqn:E.
  - apply existsb_exists. exists kv. now rewrite String.eqb_refl, E.
  - destruct (existsb _ st) eqn:Ex; [|reflexivity].
    apply existsb_exists in Ex. destruct Ex as [kv' [_ Hc]].
    apply andb_true_iff in Hc. destruct Hc as [Hk Hs].
    apply String.eqb_eq in Hk. unfold of_session in *. congruence.
Qed.

Lemma filter_length_split {A} (f : A -> bool) (l : list A) :
  (List.length (filter f l) + List.length (filter (fun x => negb (f x)) l))%nat
  = List.length l.
Proof.
  induction l as [|x l IH]; simpl; [reflexivity|].
  destruct (f x); simpl; lia.
Qed.

(** Looking a key up in what a filter on the keys keeps. *)
Lemma get_filter_key (g : string -> bool) (k : string) (m : Store) :
  JsMap.get k (filter (fun kv => g (fst kv)) m) = if g k then JsMap.get k m else None.
Proof.
  induction m as [|[k' d'] m IH]; simpl.
  - now destruct (g k).
  - destruct (g k') eqn:Eg; simpl.
    + destruct (String.eqb_spec k' k) as [->|Hne]; [now rewrite Eg | exact IH].
    + destruct (String.eqb_spec k' k) as [->|Hne]; [now rewrite IH, Eg | exact IH].
Qed.

(** C5. An authorised DELETE without an [id] parameter whose body carries a
    sessionId removes exactly the entries whose key contains the last eight
    characters of the sessionId, keeps every other entry as it was and in
    its place, and answers 200 with a [deletedCount] that is the number of
    entries removed.  In a store whose entries are stored under their ids,
    as every reachable store is, the entries removed are those whose [id]
    contains these characters. *)
Theorem delete_session_removes_matching
    (request : Request) (body : JsValue) (s : string) (st : Store) :
  authorize request "DELETE" = None ->
  query_id request = None ->
  json_body request = Some body ->
  get_prop body "sessionId" = Some (JStr s) ->
  s <> "" ->
  snd (DELETE request st)
  = filter (fun kv => negb (includes (fst kv) (slice_last 8 s))) st /\
  (forall k, includes k (slice_last 8 s) = true ->
             JsMap.get k (snd (DELETE request st)) = None) /\
  (forall k, includes k (slice_last 8 s) = false ->
             JsMap.get k (snd (DELETE request st)) = JsMap.get k st) /\
  status (fst (DELETE request st)) = 200 /\
  response_deletedCount (fst (DELETE request st))
  = Some (List.length (filter (of_session (slice_last 8 s)) st)) /\
  (List.length (filter (of_session (slice_last 8 s)) st)
   + List.length (snd (DELETE request st)))%nat = List.length st /\
  (keyed st = true ->
   forall kv, In kv st ->
              (In kv (snd (DELETE request st))
               <-> includes (id (snd kv)) (slice_last 8 s) = false)).
Proof.
  intros Hauth Hid Hbody Hsid Hne.
  assert (Hrun : exists message reason,
             DELETE request st
             = ({| status := 200;
                   payload := PSessionCleaned message
                                (List.length (filter (of_session (slice_last 8 s)) st))
                                reason |},
                filter (fun kv => negb (includes (fst kv) (slice_last 8 s))) st)).
  { unfold DELETE. rewrite Hauth, Hid.
    unfold session_cleanup, Try.bind, Try.lift, Try.entries, Try.ret.
    rewrite Hbody, Hsid, (truthy_JStr s Hne), delete_matching_string. simpl.
    assert (Hr : exists r, get_prop body "reason" = Some r).
    { destruct body; simpl in Hsid; try discriminate; simpl; eauto. }
    destruct Hr as [r ->]. eexists _, _. f_equal.
    apply filter_ext_in. intros kv Hin. now rewrite of_session_self. }
  destruct Hrun as (message & reason & ->). simpl.
  split; [reflexivity|].
  split; [|split; [|split; [reflexivity | split; [reflexivity | split]]]].
  - intros k Hk.
    rewrite (get_filter_key (fun k => negb (includes k (slice_last 8 s)))). now rewrite Hk.
  - intros k Hk.
    rewrite (get_filter_key (fun k => negb (includes k (slice_last 8 s)))). now rewrite Hk.
  - apply (filter_length_split (of_session (slice_last 8 s))).
  - intros Hkeyed kv Hin. rewrite filter_In, negb_true_iff.
    unfold keyed in Hkeyed. rewrite forallb_forall in Hkeyed.
    specialize (Hkeyed kv Hin). apply String.eqb_eq in Hkeyed. rewrite <- Hkeyed.
    tauto.
Qed.

Lemma delete_session_removes_matching_witness :
  authorize (session_delete "abcdefgh12345678") "DELETE" = None /\
  snd (DELETE (session_delete "abcdefgh12345678") sample_store)
  = [ sample_entry "normal-kilo-87654321" "Kilo (Normal)" 5 650000 650000 ] /\
  response_deletedCount (fst (DELETE (session_delete "abcdefgh12345678") sample_store))
  = Some 2%nat.
Proof.
  assert (Hne : "abcdefgh12345678" <> "") by discriminate.
  destruct (delete_session_removes_matching (session_delete "abcdefgh12345678")
              (JObj [("sessionId", JStr "abcdefgh12345678"); ("reason", JStr "server closed")])
              "abcdefgh12345678" sample_store eq_refl eq_refl eq_refl eq_refl Hne)
    as (Hstore & _ & _ & _ & Hcount & _ & _).
  split; [reflexivity|]. split; [exact Hstore | exact Hcount].
Defined.

(** ** Generic records *)

(** C6. An authorised POST whose body is not a session batch and lacks a
    truthy name, or has a price or a quantity that is not a number, is
    answered 400 and leaves the store as it was. *)
Theorem invalid_generic_post_rejected
    (t1 t2 : Z) (request : Request) (body : JsValue) (st : Store) :
  authorize request "POST" = None ->
  json_body request = Some body ->
  nullish body = false ->
  batch_shaped body = false ->
  truthy (field body "name") = false \/
  is_number (field body "price") = false \/
  is_number (field body "quantity") = false ->
  status (fst (POST t1 t2 request st)) = 400 /\
  snd (POST t1 t2 request st) = st.
Proof.
  intros Hauth Hbody Hnn Hshape Hbad.
  assert (Hprop : forall key, get_prop body key = Some (field body key)).
  { intros key. unfold field. destruct body; simpl in *; try reflexivity; discriminate. }
  unfold batch_shaped in Hshape.
  unfold POST. rewrite Hauth.
  unfold Try.catch, Try.bind, Try.lift, Try.ret. rewrite Hbody, !Hprop, Hshape.
  assert (Hc : negb (truthy (field body "name"))
               || negb (is_number (field body "price"))
               || negb (is_number (field body "quantity")) = true).
  { destruct Hbad as [H|[H|H]]; rewrite H; simpl;
      rewrite ?orb_true_r; reflexivity. }
  rewrite Hc. simpl. split; reflexivity.
Qed.

Lemma invalid_generic_post_rejected_witness :
  authorize (generic_post [("name", JStr "Kilo"); ("price", JStr "100"); ("quantity", JNum 1)])
            "POST" = None /\
  is_number (JStr "100") = false /\
  status (fst (POST 1000 1001
                 (generic_post [("name", JStr "Kilo"); ("price", JStr "100"); ("quantity", JNum 1)])
                 sample_store)) = 400 /\
  snd (POST 1000 1001
         (generic_post [("name", JStr "Kilo"); ("price", JStr "100"); ("quantity", JNum 1)])
         sample_store) = sample_store.
Proof.
  split; [reflexivity|]. split; [reflexivity|].
  apply (invalid_generic_post_rejected 1000 1001
           (generic_post [("name", JStr "Kilo"); ("price", JStr "100"); ("quantity", JNum 1)])
           (JObj [("name", JStr "Kilo"); ("price", JStr "100"); ("quantity", JNum 1)])
           sample_store);
    [reflexivity | reflexivity | reflexivity | reflexivity | right; left; reflexivity].
Defined.

(** ** Keep-alive *)

(** What an authorised PATCH with a truthy [id] answers and stores. *)
Lemma PATCH_by_value (t : Z) (request : Request) (body v : JsValue) (st : Store) :
  authorize request "PATCH" = None ->
  json_body request = Some body ->
  get_prop body "id" = Some v ->
  truthy v = true ->
  PATCH t request st
  = match get_by_value v st with
    | None => (not_found (to_string v), st)
    | Some (k, d) =>
        ({| status := 200; payload := PPinged "Stock pinged successfully" t |},
         JsMap.set k (touched t d) st)
    end.
Proof.
  intros Hauth Hbody Hid Htruthy.
  unfold PATCH. rewrite Hauth.
  unfold Try.catch, Try.bind, Try.lift, Try.ret, Try.entries, Try.set.
  rewrite Hbody, Hid, Htruthy. simpl.
  destruct (get_by_value v st) as [[k d]|]; reflexivity.
Qed.



(** ** Public and authenticated reads *)

Lemma authorize_public_get (request : Request) :
  query_key request = Some "status" -> authorize request "GET" = None.
Proof. intros H. unfold authorize, is_status. now rewrite H. Qed.

Lemma authorize_valid_key (request : Request) (method : string) :
  authorization request = Some validKey -> authorize request method = None.
Proof.
  intros H. unfold authorize. rewrite H.
  destruct ((method =? "GET")%string && is_status (query_key request)); reflexivity.
Qed.

(** C9. On one store and at one time, a GET with [key=status] and a GET
    with the valid Authorization header, for the same [id] or for the whole
    list, leave the same store and give the same status and the same
    entries with the same fields; the payloads are equal once the access
    marker (and its note) is taken off the public one, which carries it
    whenever it carries data. *)
Theorem public_get_same_data
    (now t : Z) (public private : Request) (st : Store) :
  query_key public = Some "status" ->
  authorization private = Some validKey ->
  is_status (query_key private) = false ->
  query_id public = query_id private ->
  snd (GET now t public st) = snd (GET now t private st) /\
  status (fst (GET now t public st)) = status (fst (GET now t private st)) /\
  response_entries (fst (GET now t public st))
  = response_entries (fst (GET now t private st)) /\
  strip_access (payload (fst (GET now t public st)))
  = payload (fst (GET now t private st)) /\
  response_access (fst (GET now t private st)) = None /\
  (status (fst (GET now t public st)) = 200 ->
   response_access (fst (GET now t public st)) = Some "public").
Proof.
  intros Hpub Hkey Hpriv Hid.
  unfold GET.
  rewrite (authorize_public_get public Hpub), (authorize_valid_key private "GET" Hkey).
  rewrite Hpriv, <- Hid. unfold is_status. rewrite Hpub. simpl.
  destruct (query_id public) as [k|]; simpl.
  - destruct (k =? "")%string; simpl.
    + repeat split.
    + destruct (JsMap.get k (cleanupExpiredData now st)); simpl; repeat split.
      discriminate.
  - repeat split.
Qed.

Lemma public_get_same_data_witness :
  query_key (public_get None) = Some "status" /\
  authorization (authorized_get None) = Some validKey /\
  response_entries (fst (GET 700000 700001 (public_get None) sample_store))
  = response_entries (fst (GET 700000 700001 (authorized_get None) sample_store)) /\
  response_access (fst (GET 700000 700001 (public_get None) sample_store))
  = Some "public".
Proof.
  destruct (public_get_same_data 700000 700001 (public_get None) (authorized_get None)
              sample_store eq_refl eq_refl eq_refl eq_refl)
    as (_ & _ & Hentries & _ & _ & Hmark).
  split; [reflexivity|]. split; [reflexivity|].
  split; [exact Hentries | apply Hmark; reflexivity].
Defined.

(** ** Writes do not sweep *)

(** C10. PUT, PATCH and DELETE look an id up in the map as it is, without
    a sweep.  An entry that has expired at the time of the request and that
    no sweep has removed yet is found by all three, while a GET for it at
    that time answers 404.  The PATCH answers 200 and sets the entry's
    [lastUpdated] to the time of the request, so that a sweep at that time
    keeps it; and neither the PATCH nor the PUT nor the DELETE removes any
    other entry, expired or not. *)
Theorem patch_revives_expired_entry
    (t t' : Z) (request : Request) (body : JsValue) (k : string) (d : StockData)
    (st : Store) :
  JsMap.wf st = true ->
  authorization request = Some validKey ->
  json_body request = Some body ->
  get_prop body "id" = Some (JStr k) ->
  query_id request = Some k ->
  k <> "" ->
  JsMap.get k st = Some d ->
  t - lastUpdated d > DATA_EXPIRY ->
  (status (fst (PATCH t request st)) = 200 /\
   JsMap.get k (snd (PATCH t request st)) = Some (touched t d) /\
   JsMap.get k (cleanupExpiredData t (snd (PATCH t request st))) = Some (touched t d) /\
   forall k', k' <> k -> JsMap.get k' (snd (PATCH t request st)) = JsMap.get k' st) /\
  (status (fst (PUT t request st)) = 200 /\
   option_map lastUpdated (JsMap.get k (snd (PUT t request st))) = Some t /\
   forall k', k' <> k -> JsMap.get k' (snd (PUT t request st)) = JsMap.get k' st) /\
  (fst (DELETE request st)
   = {| status := 200;
        payload := PDeleted ("Stock " ++ k ++ " deleted successfully") d |} /\
   forall k', k' <> k -> JsMap.get k' (snd (DELETE request st)) = JsMap.get k' st) /\
  status (fst (GET t t' request st)) = 404.
Proof.
  intros Hwf Hkey Hbody Hid Hq Hne Hget Hold.
  assert (Hk : (k =? "")%string = false) by now apply String.eqb_neq.
  assert (Hv : get_by_value (JStr k) st = Some (k, d)) by (simpl; now rewrite Hget).
  assert (HP : PATCH t request st
               = ({| status := 200; payload := PPinged "Stock pinged successfully" t |},
                  JsMap.set k (touched t d) st)).
  { rewrite (PATCH_by_value t request body (JStr k) st
               (authorize_valid_key request "PATCH" Hkey) Hbody Hid (truthy_JStr k Hne)).
    now rewrite Hv. }
  rewrite HP. simpl.
  repeat split.
  - apply get_set_eq.
  - rewrite cleanup_filter, get_filter, get_set_eq by now apply wf_set.
    simpl.
    replace (expired t (touched t d)) with false; [reflexivity|].
    symmetry. apply not_expired_spec. simpl. unfold DATA_EXPIRY. lia.
  - intros k' Hne'. apply get_set_ne. congruence.
  - unfold PUT. rewrite (authorize_valid_key request "PUT" Hkey).
    unfold Try.catch, Try.bind, Try.lift, Try.ret, Try.entries, Try.set.
    rewrite Hbody, Hid. destruct body; simpl in Hid; try discriminate. simpl.
    rewrite Hk. simpl. now rewrite Hget.
  - unfold PUT. rewrite (authorize_valid_key request "PUT" Hkey).
    unfold Try.catch, Try.bind, Try.lift, Try.ret, Try.entries, Try.set.
    rewrite Hbody, Hid. destruct body; simpl in Hid; try discriminate. simpl.
    rewrite Hk. simpl. rewrite Hget. simpl. now rewrite get_set_eq.
  - intros k' Hne'.
    unfold PUT. rewrite (authorize_valid_key request "PUT" Hkey).
    unfold Try.catch, Try.bind, Try.lift, Try.ret, Try.entries, Try.set.
    rewrite Hbody, Hid. destruct body; simpl in Hid; try discriminate. simpl.
    rewrite Hk. simpl. rewrite Hget. simpl. apply get_set_ne. congruence.
  - unfold DELETE. rewrite (authorize_valid_key request "DELETE" Hkey), Hq, Hk, Hget.
    reflexivity.
  - intros k' Hne'.
    unfold DELETE. rewrite (authorize_valid_key request "DELETE" Hkey), Hq, Hk, Hget.
    simpl. unfold JsMap.delete.
    rewrite (get_filter_key (fun x => negb (x =? k)%string)).
    destruct (String.eqb_spec k' k); [contradiction | reflexivity].
  - unfold GET. rewrite (authorize_valid_key request "GET" Hkey), Hq, Hk.
    rewrite cleanup_filter, get_filter, Hget by exact Hwf. simpl.
    apply expired_spec in Hold. now rewrite Hold.
Qed.

Lemma patch_revives_expired_entry_witness :
  JsMap.wf sample_store = true /\
  700000 - 0 > DATA_EXPIRY /\
  status (fst (PATCH 700000 apple_request sample_store)) = 200 /\
  option_map lastUpdated
    (JsMap.get "normal-apple-12345678" (snd (PATCH 700000 apple_request sample_store)))
  = Some 700000 /\
  status (fst (GET 700000 700001 apple_request sample_store)) = 404.
Proof.
  assert (Hne : "normal-apple-12345678" <> "") by discriminate.
  assert (Hold : 700000 - 0 > DATA_EXPIRY) by (vm_compute; reflexivity).
  destruct (patch_revives_expired_entry 700000 700001 apple_request
              (JObj [("id", JStr "normal-apple-12345678")])
              "normal-apple-12345678"
              (snd (sample_entry "normal-apple-12345678" "Apple (Normal)" 100 0 0))
              sample_store eq_refl eq_refl eq_refl eq_refl eq_refl Hne eq_refl Hold)
    as ((Hstatus & Hget & _) & _ & _ & Hmiss).
  split; [reflexivity|]. split; [exact Hold|]. split; [exact Hstatus|].
  split; [now rewrite Hget | exact Hmiss].
Defined.

(** ** Elements of a batch that cannot be stored *)

Lemma process_fruit_harmless tag variant now sid fr st :
  harmless fr = true ->
  process_fruit tag variant now (JStr sid) fr st
  = (Some tt, store_fruit tag variant now (slice_last 8 sid) st fr).
Proof.
  unfold harmless, store_fruit, field, process_fruit, Try.bind, Try.lift, Try.ret.
  destruct (get_prop fr "name") as [v|] eqn:Hn; [|discriminate].
  assert (Hp : exists pv, get_prop fr "price" = Some pv).
  { destruct fr; simpl in *; try discriminate; eauto. }
  destruct Hp as [pv Hp]. rewrite Hp.
  destruct (truthy v) eqn:Ht; simpl.
  - destruct (is_number pv) eqn:Hnum; simpl.
    + destruct v; try discriminate. destruct pv; try discriminate. intros _.
      simpl in Ht. apply negb_true_iff in Ht. rewrite Ht. reflexivity.
    + intros _. destruct v; try reflexivity. destruct pv; try reflexivity.
      discriminate.
  - intros _. destruct v; try reflexivity. destruct pv; try reflexivity.
    simpl in Ht. apply negb_false_iff in Ht. now rewrite Ht.
Qed.

Lemma process_stock_harmless tag variant now sid frs st :
  forallb harmless frs = true ->
  process_stock tag variant now (JStr sid) (JArr frs) st
  = (Some tt, fold_left (store_fruit tag variant now (slice_last 8 sid)) frs st).
Proof.
  simpl. revert st. induction frs as [|fr frs IH]; intros st H; simpl in *.
  - reflexivity.
  - apply andb_true_iff in H. destruct H as [Hfr Hrest].
    unfold Try.bind. rewrite (process_fruit_harmless _ _ _ _ _ _ Hfr).
    now apply IH.
Qed.

(** When the sessionId is a string and no element of the two arrays is
    [null] or has a truthy name that is not a string, the batch is answered
    201, the elements without a name or without a number for a price leave
    the store as it is, and every other element is stored, in order. *)
Lemma harmless_batch_skips_invalid (t1 t2 : Z) (request : Request) (body : JsValue)
    (s : string) (normals mirages : list JsValue) (st : Store) :
  authorize request "POST" = None ->
  json_body request = Some body ->
  get_prop body "sessionId" = Some (JStr s) -> s <> "" ->
  get_prop body "normalStock" = Some (JArr normals) ->
  get_prop body "mirageStock" = Some (JArr mirages) ->
  forallb harmless normals = true ->
  forallb harmless mirages = true ->
  status (fst (POST t1 t2 request st)) = 201 /\
  snd (POST t1 t2 request st)
  = fold_left (store_fruit "mirage" " (Mirage)" t1 (slice_last 8 s)) mirages
      (fold_left (store_fruit "normal" " (Normal)" t1 (slice_last 8 s)) normals st).
Proof.
  intros Hauth Hbody Hsid Hne Hn Hm Hns Hms.
  assert (Hprop : forall key, get_prop body key = Some (field body key)).
  { intros key. unfold field. destruct body; simpl in *; try reflexivity; discriminate. }
  unfold POST. rewrite Hauth.
  unfold Try.catch, Try.bind, Try.lift, Try.ret.
  rewrite Hbody, Hsid, Hn, Hm, (truthy_JStr s Hne), !Hprop.
  cbn [truthy andb orb].
  rewrite (process_stock_harmless _ _ _ _ _ _ Hns).
  rewrite (process_stock_harmless _ _ _ _ _ _ Hms).
  split; reflexivity.
Qed.

Example lenient_batch_stored :
  status (fst (POST 1000 1001 lenient_batch JsMap.empty)) = 201 /\
  snd (POST 1000 1001 lenient_batch JsMap.empty)
  = [ batch_entry "normal" " (Normal)" 1000 "12345678" "Apple" 100;
      batch_entry "mirage" " (Mirage)" 1000 "12345678" "Banana" 200 ].
Proof.
  assert (Hne : "abcdefgh12345678" <> "") by discriminate.
  exact (harmless_batch_skips_invalid 1000 1001 lenient_batch _ "abcdefgh12345678" _ _
           JsMap.empty eq_refl eq_refl eq_refl Hne eq_refl eq_refl eq_refl eq_refl).
Qed.

(** C7, where the code departs from it.  A [null] among the elements of a
    batch is not passed over: reading its name throws, the request is
    answered 500, and the valid elements after it and in the other array are
    not stored.  The same happens at an element whose name is a number,
    after the valid elements before it have been stored. *)
Theorem batch_with_unreadable_element_fails :
  POST 1000 1001 null_element_batch JsMap.empty
  = (internal_error "Failed to create stock", JsMap.empty) /\
  status (fst (POST 1000 1001 null_element_batch JsMap.empty)) = 500 /\
  POST 1000 1001 numeric_name_batch JsMap.empty
  = (internal_error "Failed to create stock",
     [ batch_entry "normal" " (Normal)" 1000 "12345678" "Apple" 100 ]).
Proof. repeat split. Qed.

(** * Further properties of the handlers *)

(** ** Authorization *)

Lemma authorize_cases (request : Request) (method : string) :
  authorize request method = None \/ authorize request method = Some unauthorized.
Proof.
  unfold authorize. destruct (_ && _); [now left|].
  destruct (authorization request) as [h|]; [|now right].
  destruct (_ || _); [now right | now left].
Qed.

Lemma header_passes_iff (request : Request) :
  match authorization request with
  | None => Some unauthorized
  | Some authHeader =>
      if (authHeader =? "")%string || negb (authHeader =? validKey)%string
      then Some unauthorized
      else None
  end = None
  <-> authorization request = Some validKey.
Proof.
  destruct (authorization request) as [h|]; [|split; discriminate].
  destruct (String.eqb_spec h validKey) as [->|Hne]; simpl.
  - split; reflexivity.
  - rewrite orb_true_r. split; [discriminate | intros [= E]; contradiction].
Qed.

(** X1. A request passes [authorize] exactly when it is a GET with
    [key=status] or carries the valid Authorization header: the public flag
    admits no other method. *)
Theorem authorize_passes_iff (request : Request) (method : string) :
  authorize request method = None <->
  (method = "GET" /\ query_key request = Some "status") \/
  authorization request = Some validKey.
Proof.
  unfold authorize.
  destruct ((method =? "GET")%string && is_status (query_key request)) eqn:E.
  - split; [intros _; left | reflexivity].
    apply andb_true_iff in E. destruct E as [Hm Hk].
    apply String.eqb_eq in Hm. unfold is_status in Hk.
    destruct (query_key request) as [k|]; [|discriminate].
    apply String.eqb_eq in Hk. subst. now split.
  - rewrite header_passes_iff. split; [now right|].
    intros [[Hm Hk]|H]; [|exact H].
    subst. unfold is_status in E. rewrite Hk in E. discriminate.
Qed.

Lemma authorize_rejects (request : Request) (method : string) :
  authorization request <> Some validKey ->
  method <> "GET" \/ query_key request <> Some "status" ->
  authorize request method = Some unauthorized.
Proof.
  intros Hh Hm. destruct (authorize_cases request method) as [H|H]; [|exact H].
  unfold authorize in H.
  destruct ((method =? "GET")%string && is_status (query_key request)) eqn:E.
  - apply andb_true_iff in E. destruct E as [Em Ek].
    apply String.eqb_eq in Em. unfold is_status in Ek.
    destruct (query_key request) as [k|]; [|discriminate].
    apply String.eqb_eq in Ek. subst. destruct Hm as [Hm|Hm]; contradiction.
  - apply header_passes_iff in H. contradiction.
Qed.

(** X2. A request without the valid Authorization header is answered 401
    by POST, PUT, DELETE and PATCH, whatever its query and body, and by GET
    unless it carries [key=status]; the store is left as it was. *)
Theorem rejected_request_changes_nothing
    (t1 t2 : Z) (request : Request) (st : Store) :
  authorization request <> Some validKey ->
  POST t1 t2 request st = (unauthorized, st) /\
  PUT t1 request st = (unauthorized, st) /\
  DELETE request st = (unauthorized, st) /\
  PATCH t1 request st = (unauthorized, st) /\
  (query_key request <> Some "status" -> GET t1 t2 request st = (unauthorized, st)) /\
  status unauthorized = 401.
Proof.
  intros Hh.
  assert (Hw : forall m, m <> "GET" -> authorize request m = Some unauthorized).
  { intros m Hm. apply authorize_rejects; [exact Hh | now left]. }
  unfold POST, PUT, DELETE, PATCH, GET.
  rewrite (Hw "POST"), (Hw "PUT"), (Hw "DELETE"), (Hw "PATCH") by discriminate.
  repeat split.
  intros Hk. rewrite (authorize_rejects request "GET" Hh); [reflexivity | now right].
Qed.

Lemma rejected_request_changes_nothing_witness :
  authorization (flag_only (Some (batch "abcdefgh12345678" [fruit "Apple" 100] [])))
  <> Some validKey /\
  POST 1000 1001 (flag_only (Some (batch "abcdefgh12345678" [fruit "Apple" 100] [])))
       sample_store
  = (unauthorized, sample_store).
Proof.
  assert (H : authorization (flag_only (Some (batch "abcdefgh12345678" [fruit "Apple" 100] [])))
              <> Some validKey) by discriminate.
  split; [exact H|].
  exact (proj1 (rejected_request_changes_nothing 1000 1001 _ sample_store H)).
Defined.

(** ** PUT *)

Lemma get_prop_field (body : JsValue) (key : string) (v : JsValue) :
  get_prop body key = Some v -> forall key', get_prop body key' = Some (field body key').
Proof.
  intros H key'. unfold field. destruct body; simpl in *; try reflexivity; discriminate.
Qed.

(** What an authorised PUT with a truthy [id] answers and stores. *)
Lemma PUT_by_value (t : Z) (request : Request) (body v : JsValue) (st : Store) :
  authorize request "PUT" = None ->
  json_body request = Some body ->
  get_prop body "id" = Some v ->
  truthy v = true ->
  PUT t request st
  = match get_by_value v st with
    | None => (not_found (to_string v), st)
    | Some (k, d) =>
        ({| status := 200;
            payload := PUpdated "Stock updated successfully" (merged t body d) |},
         JsMap.set k (merged t body d) st)
    end.
Proof.
  intros Hauth Hbody Hid Htruthy.
  unfold PUT. rewrite Hauth.
  unfold Try.catch, Try.bind, Try.lift, Try.ret, Try.entries, Try.set.
  rewrite Hbody, Hid, !(get_prop_field body "id" v Hid), Htruthy. simpl.
  destruct (get_by_value v st) as [[k d]|]; reflexivity.
Qed.

(** X3. An authorised PUT that names a key of the store is answered 200
    with the merged entry and stores it in the place of the old one: a
    [name], [price] or [quantity] that the body gives (neither missing nor
    [null]) replaces the old one, of whatever type it is; [id] and
    [createdAt] are kept, [lastUpdated] becomes the time of the PUT, and
    every other entry and the order of the keys are as before. *)
Theorem put_merges_given_fields
    (t : Z) (request : Request) (body : JsValue) (k : string) (d : StockData)
    (st : Store) :
  authorize request "PUT" = None ->
  json_body request = Some body ->
  get_prop body "id" = Some (JStr k) ->
  k <> "" ->
  JsMap.get k st = Some d ->
  PUT t request st
  = ({| status := 200;
        payload := PUpdated "Stock updated successfully" (merged t body d) |},
     JsMap.set k (merged t body d) st) /\
  JsMap.get k (snd (PUT t request st)) = Some (merged t body d) /\
  (forall k', k' <> k -> JsMap.get k' (snd (PUT t request st)) = JsMap.get k' st) /\
  JsMap.keys (snd (PUT t request st)) = JsMap.keys st /\
  id (merged t body d) = id d /\
  createdAt (merged t body d) = createdAt d /\
  lastUpdated (merged t body d) = t /\
  (nullish (field body "name") = true ->
   nullish (field body "price") = true ->
   nullish (field body "quantity") = true ->
   merged t body d = touched t d).
Proof.
  intros Hauth Hbody Hid Hne Hget.
  rewrite (PUT_by_value t request body (JStr k) st Hauth Hbody Hid (truthy_JStr k Hne)).
  simpl. rewrite Hget. simpl.
  repeat split.
  - apply get_set_eq.
  - intros k' Hne'. apply get_set_ne. congruence.
  - eapply keys_set_present; eauto.
  - intros Hn Hp Hq. unfold merged, touched, coalesce. now rewrite Hn, Hp, Hq.
Qed.

Lemma put_merges_given_fields_witness :
  authorize banana_update "PUT" = None /\
  snd (PUT 560000 banana_update sample_store)
  = [ sample_entry "normal-apple-12345678" "Apple (Normal)" 100 0 0;
      sample_entry "mirage-banana-12345678" "Banana (Mirage)" 250 560000 0;
      sample_entry "normal-kilo-87654321" "Kilo (Normal)" 5 650000 650000 ].
Proof.
  assert (Hne : "mirage-banana-12345678" <> "") by discriminate.
  destruct (put_merges_given_fields 560000 banana_update
              (JObj [("id", JStr "mirage-banana-12345678");
                     ("price", JNum 250); ("name", JNull)])
              "mirage-banana-12345678"
              (snd (sample_entry "mirage-banana-12345678" "Banana (Mirage)" 200 500000 0))
              sample_store eq_refl eq_refl eq_refl Hne eq_refl) as (Hput & _).
  split; [reflexivity|]. rewrite Hput. reflexivity.
Defined.

(** X4. PUT and PATCH never add or remove an entry: whatever the request,
    the keys of the store and their order are as before. *)
Theorem put_and_patch_keep_the_keys (t : Z) (request : Request) (st : Store) :
  JsMap.keys (snd (PUT t request st)) = JsMap.keys st /\
  JsMap.keys (snd (PATCH t request st)) = JsMap.keys st.
Proof.
  split.
  - destruct (PUT_store t request st) as [->|(k & old & new & Hold & -> & _)];
      [reflexivity | eapply keys_set_present; eauto].
  - destruct (PATCH_store t request st) as [->|(k & old & Hold & ->)];
      [reflexivity | eapply keys_set_present; eauto].
Qed.

(** X5. An authorised PUT or PATCH whose body has no truthy [id] is
    answered 400, and one without a JSON body, or with the body [null], is
    answered 500, as is such a POST; the store is left as it was. *)
Theorem missing_id_or_body_is_refused (t1 t2 : Z) (request : Request) (st : Store) :
  authorization request = Some validKey ->
  (forall body v, json_body request = Some body ->
                  get_prop body "id" = Some v -> truthy v = false ->
                  PUT t1 request st = (bad_request "Stock ID is required", st) /\
                  PATCH t1 request st = (bad_request "Stock ID is required for ping", st)) /\
  (json_body request = None \/ json_body request = Some JNull ->
   PUT t1 request st = (internal_error "Failed to update stock", st) /\
   PATCH t1 request st = (internal_error "Failed to ping stock", st) /\
   POST t1 t2 request st = (internal_error "Failed to create stock", st)).
Proof.
  intros Hkey. unfold PUT, PATCH, POST.
  rewrite !(authorize_valid_key request _ Hkey).
  unfold Try.catch, Try.bind, Try.lift, Try.ret, Try.entries, Try.set.
  split.
  - intros body v Hbody Hid Hf.
    rewrite Hbody, Hid, !(get_prop_field body "id" v Hid), Hf. simpl. now split.
  - intros [Hb|Hb]; rewrite Hb; simpl; repeat split.
Qed.

Lemma missing_id_or_body_is_refused_witness :
  authorization (authorized None) = Some validKey /\
  POST 1000 1001 (authorized None) sample_store
  = (internal_error "Failed to create stock", sample_store).
Proof.
  split; [reflexivity|].
  destruct (missing_id_or_body_is_refused 1000 1001 (authorized None) sample_store eq_refl)
    as (_ & H).
  destruct (H (or_introl eq_refl)) as (_ & _ & HP). exact HP.
Defined.

(** ** DELETE *)

(** X6. An authorised DELETE with an [id] parameter ignores the body: when
    the id is a key it answers 200 with the entry, removes that entry and
    no other; when it is not it answers 404 and leaves the store as it
    was. *)
Theorem delete_by_id_removes_one (request : Request) (k : string) (st : Store) :
  authorize request "DELETE" = None ->
  query_id request = Some k ->
  k <> "" ->
  match JsMap.get k st with
  | Some d =>
      DELETE request st
      = ({| status := 200;
            payload := PDeleted ("Stock " ++ k ++ " deleted successfully") d |},
         JsMap.delete k st) /\
      JsMap.get k (snd (DELETE request st)) = None /\
      (forall k', k' <> k -> JsMap.get k' (snd (DELETE request st)) = JsMap.get k' st)
  | None => DELETE request st = (not_found k, st)
  end.
Proof.
  intros Hauth Hq Hne.
  assert (Hk : (k =? "")%string = false) by now apply String.eqb_neq.
  unfold DELETE. rewrite Hauth, Hq, Hk.
  destruct (JsMap.get k st) as [d|]; [|reflexivity].
  simpl. split; [reflexivity|]. unfold JsMap.delete. split.
  - rewrite (get_filter_key (fun x => negb (x =? k)%string)).
    now rewrite String.eqb_refl.
  - intros k' Hne'. rewrite (get_filter_key (fun x => negb (x =? k)%string)).
    destruct (String.eqb_spec k' k); [contradiction | reflexivity].
Qed.

Lemma delete_by_id_removes_one_witness :
  authorize (delete_by_id "mirage-banana-12345678") "DELETE" = None /\
  snd (DELETE (delete_by_id "mirage-banana-12345678") sample_store)
  = [ sample_entry "normal-apple-12345678" "Apple (Normal)" 100 0 0;
      sample_entry "normal-kilo-87654321" "Kilo (Normal)" 5 650000 650000 ].
Proof.
  assert (Hne : "mirage-banana-12345678" <> "") by discriminate.
  pose proof (delete_by_id_removes_one (delete_by_id "mirage-banana-12345678")
                "mirage-banana-12345678" sample_store eq_refl eq_refl Hne) as H.
  simpl in H. destruct H as (H & _).
  split; [reflexivity|]. rewrite H. reflexivity.
Defined.


(** The loop for a sessionId that cannot be sliced: it throws at the first
    entry, before any removal. *)
Lemma delete_matching_throws (sessionId : JsValue)
    (l : list (string * StockData)) (n : nat) (acc : Store) :
  call_slice_last8 sessionId = None ->
  snd (delete_matching sessionId l n acc) = acc.
Proof.
  intros Hs. destruct l as [|[key d] rest]; simpl; [reflexivity|].
  unfold Try.bind, Try.lift. now rewrite Hs.
Qed.


(** X7. An authorised DELETE without an [id] whose body gives no usable
    sessionId (no JSON body, the body [null], a falsy sessionId, or one that
    is neither a string nor an array) is answered 400 and leaves the store
    as it was. *)
Theorem delete_without_target_is_refused (request : Request) (st : Store) :
  authorize request "DELETE" = None ->
  no_id request = true ->
  session_suffix (json_body request) = None ->
  DELETE request st = (bad_request "Stock ID is required", st).
Proof.
  intros Hauth Hno Hs. unfold DELETE. rewrite Hauth.
  assert (Hc : (match session_cleanup request st with
                | (Some (Some response), st') => (response, st')
                | (_, st') => (bad_request "Stock ID is required", st')
                end) = (bad_request "Stock ID is required", st)).
  { unfold session_cleanup, Try.bind, Try.lift, Try.entries, Try.ret.
    unfold session_suffix in Hs.
    destruct (json_body request) as [body|]; [|reflexivity].
    destruct (get_prop body "sessionId") as [sid|]; [|reflexivity].
    destruct (truthy sid); [|reflexivity].
    pose proof (delete_matching_throws sid st 0 st Hs) as Hst.
    destruct (delete_matching sid st 0 st) as [[m|] st']; simpl in Hst; subst st'.
    - now rewrite Hs.
    - reflexivity. }
  unfold no_id in Hno.
  destruct (query_id request) as [k|]; [rewrite Hno|]; exact Hc.
Qed.

Lemma delete_without_target_is_refused_witness :
  authorize (authorized (Some (JObj [("sessionId", JNum 12345678)]))) "DELETE" = None /\
  DELETE (authorized (Some (JObj [("sessionId", JNum 12345678)]))) sample_store
  = (bad_request "Stock ID is required", sample_store).
Proof.
  split; [reflexivity|].
  exact (delete_without_target_is_refused
           (authorized (Some (JObj [("sessionId", JNum 12345678)]))) sample_store
           eq_refl eq_refl eq_refl).
Defined.



(** ** POST *)

Lemma append_not_empty (a b : string) : b <> "" -> a ++ b <> "".
Proof. intros Hb. destruct a; simpl; [exact Hb | discriminate]. Qed.

(** X9. An authorised POST of a generic record with a non-empty string
    for a name and numbers for price and quantity is answered 201 and
    stores the record as sent, under the lowered name with its white space
    turned into dashes, a dash and the first reading of the clock, with
    [createdAt] and [lastUpdated] at the second reading.  A GET for that id
    within the expiry answers 200 with the same record. *)
Theorem generic_post_then_get
    (t1 t2 now t : Z) (request : Request) (body : JsValue) (n : string) (p q : Z)
    (st : Store) :
  JsMap.wf st = true ->
  authorize request "POST" = None ->
  json_body request = Some body ->
  batch_shaped body = false ->
  get_prop body "name" = Some (JStr n) -> n <> "" ->
  get_prop body "price" = Some (JNum p) ->
  get_prop body "quantity" = Some (JNum q) ->
  POST t1 t2 request st
  = ({| status := 201;
        payload := PCreated "Stock created successfully"
                            (snd (generic_entry t1 t2 n p q)) |},
     JsMap.set (fst (generic_entry t1 t2 n p q)) (snd (generic_entry t1 t2 n p q)) st) /\
  (now - t2 <= DATA_EXPIRY ->
   fst (GET now t (authorized_get (Some (fst (generic_entry t1 t2 n p q))))
            (snd (POST t1 t2 request st)))
   = {| status := 200; payload := PStock (snd (generic_entry t1 t2 n p q)) None |}).
Proof.
  intros Hwf Hauth Hbody Hshape Hn Hne Hp Hq.
  assert (HP : POST t1 t2 request st
               = ({| status := 201;
                     payload := PCreated "Stock created successfully"
                                         (snd (generic_entry t1 t2 n p q)) |},
                  JsMap.set (fst (generic_entry t1 t2 n p q))
                            (snd (generic_entry t1 t2 n p q)) st)).
  { unfold POST. rewrite Hauth.
    unfold Try.catch, Try.bind, Try.lift, Try.ret, Try.set.
    unfold batch_shaped in Hshape.
    rewrite Hbody, !(get_prop_field body "name" _ Hn), Hshape.
    unfold field. rewrite Hn, Hp, Hq, (truthy_JStr n Hne). reflexivity. }
  split; [exact HP|]. intros Hlive. rewrite HP.
  assert (Hk : (fst (generic_entry t1 t2 n p q) =? "")%string = false).
  { apply String.eqb_neq. simpl. apply append_not_empty. discriminate. }
  unfold GET.
  rewrite (authorize_valid_key
             (authorized_get (Some (fst (generic_entry t1 t2 n p q)))) "GET" eq_refl).
  cbn [query_id authorized_get query_key is_status snd].
  rewrite Hk.
  rewrite cleanup_filter, get_filter, get_set_eq by now apply wf_set.
  cbn [snd]. replace (expired now (snd (generic_entry t1 t2 n p q))) with false.
  - reflexivity.
  - symmetry. apply not_expired_spec. exact Hlive.
Qed.

Lemma generic_post_then_get_witness :
  JsMap.wf sample_store = true /\
  authorize kilo_post "POST" = None /\
  700000 - 690001 <= DATA_EXPIRY /\
  fst (GET 700000 700001 (authorized_get (Some "kilo-fruit-690000"))
           (snd (POST 690000 690001 kilo_post sample_store)))
  = {| status := 200; payload := PStock (snd (generic_entry 690000 690001 "Kilo Fruit" 5 2)) None |}.
Proof.
  assert (Hne : "Kilo Fruit" <> "") by discriminate.
  assert (Hlive : 700000 - 690001 <= DATA_EXPIRY) by (vm_compute; discriminate).
  destruct (generic_post_then_get 690000 690001 700000 700001 kilo_post
              (JObj [("name", JStr "Kilo Fruit"); ("price", JNum 5); ("quantity", JNum 2)])
              "Kilo Fruit" 5 2 sample_store
              eq_refl eq_refl eq_refl eq_refl eq_refl Hne eq_refl eq_refl) as (_ & Hget).
  split; [reflexivity|]. split; [reflexivity|]. split; [exact Hlive|].
  exact (Hget Hlive).
Defined.

(** X10. An authorised POST of a generic record whose name is truthy but
    not a string, with numbers for price and quantity, passes the
    validation, throws at [name.toLowerCase()] and is answered 500; nothing
    is stored. *)
Theorem generic_post_with_non_string_name_fails
    (t1 t2 : Z) (request : Request) (body v : JsValue) (st : Store) :
  authorize request "POST" = None ->
  json_body request = Some body ->
  batch_shaped body = false ->
  get_prop body "name" = Some v ->
  truthy v = true ->
  call_toLowerCase v = None ->
  is_number (field body "price") = true ->
  is_number (field body "quantity") = true ->
  POST t1 t2 request st = (internal_error "Failed to create stock", st).
Proof.
  intros Hauth Hbody Hshape Hn Ht Hlow Hp Hq.
  unfold POST. rewrite Hauth.
  unfold Try.catch, Try.bind, Try.lift, Try.ret, Try.set.
  unfold batch_shaped in Hshape.
  rewrite Hbody, !(get_prop_field body "name" _ Hn), Hshape, Hp, Hq.
  unfold field. rewrite Hn, Ht, Hlow. reflexivity.
Qed.

Lemma generic_post_with_non_string_name_fails_witness :
  authorize (generic_post [("name", JNum 7); ("price", JNum 5); ("quantity", JNum 2)])
            "POST" = None /\
  truthy (JNum 7) = true /\
  POST 1000 1001 (generic_post [("name", JNum 7); ("price", JNum 5); ("quantity", JNum 2)])
       sample_store
  = (internal_error "Failed to create stock", sample_store).
Proof.
  split; [reflexivity|]. split; [reflexivity|].
  exact (generic_post_with_non_string_name_fails 1000 1001
           (generic_post [("name", JNum 7); ("price", JNum 5); ("quantity", JNum 2)])
           (JObj [("name", JNum 7); ("price", JNum 5); ("quantity", JNum 2)])
           (JNum 7) sample_store
           eq_refl eq_refl eq_refl eq_refl eq_refl eq_refl eq_refl eq_refl).
Defined.

(** ** Derived ids *)

Lemma process_fruit_suffix_only tag variant now sid1 sid2 fr st :
  call_slice_last8 sid1 = call_slice_last8 sid2 ->
  process_fruit tag variant now sid1 fr st = process_fruit tag variant now sid2 fr st.
Proof.
  intros H. unfold process_fruit, Try.bind, Try.lift. now rewrite H.
Qed.

Lemma for_each_ext {A} (f g : A -> Try.M unit) (l : list A) (st : Store) :
  (forall x s, f x s = g x s) -> Try.for_each f l st = Try.for_each g l st.
Proof.
  intros H. revert st. induction l as [|x l IH]; intros st; simpl; [reflexivity|].
  unfold Try.bind. rewrite H. destruct (g x st) as [[u|] st']; [apply IH | reflexivity].
Qed.

Lemma process_stock_suffix_only tag variant now sid1 sid2 stock st :
  call_slice_last8 sid1 = call_slice_last8 sid2 ->
  process_stock tag variant now sid1 stock st
  = process_stock tag variant now sid2 stock st.
Proof.
  intros H. unfold process_stock. destruct stock; try reflexivity.
  apply for_each_ext. intros x s. now apply process_fruit_suffix_only.
Qed.

(** X11. A session batch reaches the store only through the last eight
    characters of its sessionId: two batches with the same arrays whose
    sessionIds end alike get the same status and leave the same store, so
    that a second session writes over the entries of the first. *)
Theorem sessions_with_one_suffix_collide
    (t1 t2 : Z) (s1 s2 : string) (normals mirages : list JsValue) (st : Store) :
  s1 <> "" -> s2 <> "" ->
  slice_last 8 s1 = slice_last 8 s2 ->
  snd (POST t1 t2 (authorized (Some (batch s1 normals mirages))) st)
  = snd (POST t1 t2 (authorized (Some (batch s2 normals mirages))) st) /\
  status (fst (POST t1 t2 (authorized (Some (batch s1 normals mirages))) st))
  = status (fst (POST t1 t2 (authorized (Some (batch s2 normals mirages))) st)).
Proof.
  intros H1 H2 Hs.
  assert (Hc : call_slice_last8 (JStr s1) = call_slice_last8 (JStr s2))
    by (simpl; now rewrite Hs).
  assert (E1 : (s1 =? "")%string = false) by now apply String.eqb_neq.
  assert (E2 : (s2 =? "")%string = false) by now apply String.eqb_neq.
  unfold POST, authorized, batch. simpl.
  unfold Try.catch, Try.bind, Try.lift, Try.ret. simpl.
  rewrite E1, E2. simpl. unfold Try.bind, Try.ret.
  change (Try.for_each (process_fruit "normal" " (Normal)" t1 (JStr s1)) normals st)
    with (process_stock "normal" " (Normal)" t1 (JStr s1) (JArr normals) st).
  rewrite (process_stock_suffix_only "normal" " (Normal)" t1 (JStr s1) (JStr s2)
             (JArr normals) st Hc).
  cbn [process_stock].
  destruct (Try.for_each (process_fruit "normal" " (Normal)" t1 (JStr s2)) normals st)
    as [[u|] st1]; [|split; reflexivity].
  change (Try.for_each (process_fruit "mirage" " (Mirage)" t1 (JStr s1)) mirages st1)
    with (process_stock "mirage" " (Mirage)" t1 (JStr s1) (JArr mirages) st1).
  rewrite (process_stock_suffix_only "mirage" " (Mirage)" t1 (JStr s1) (JStr s2)
             (JArr mirages) st1 Hc).
  cbn [process_stock].
  destruct (Try.for_each (process_fruit "mirage" " (Mirage)" t1 (JStr s2)) mirages st1)
    as [[u'|] st2]; split; reflexivity.
Qed.

Lemma sessions_with_one_suffix_collide_witness :
  "abcdefgh12345678" <> "" /\ "zz12345678" <> "" /\
  slice_last 8 "abcdefgh12345678" = slice_last 8 "zz12345678" /\
  snd (POST 1000 1001 (authorized (Some (batch "abcdefgh12345678" [fruit "Apple" 100] []))) [])
  = snd (POST 1000 1001 (authorized (Some (batch "zz12345678" [fruit "Apple" 100] []))) []).
Proof.
  assert (H1 : "abcdefgh12345678" <> "") by discriminate.
  assert (H2 : "zz12345678" <> "") by discriminate.
  split; [exact H1|]. split; [exact H2|]. split; [reflexivity|].
  exact (proj1 (sessions_with_one_suffix_collide 1000 1001 "abcdefgh12345678" "zz12345678"
                  [fruit "Apple" 100] [] [] H1 H2 eq_refl)).
Defined.

Lemma single_normal_post (t1 t2 : Z) (s n : string) (p : Z) (st : Store) :
  s <> "" -> n <> "" ->
  snd (POST t1 t2 (authorized (Some (batch s [fruit n p] []))) st)
  = JsMap.set (fst (batch_entry "normal" " (Normal)" t1 (slice_last 8 s) n p))
              (snd (batch_entry "normal" " (Normal)" t1 (slice_last 8 s) n p)) st.
Proof.
  intros Hs Hn.
  assert (E : (s =? "")%string = false) by now apply String.eqb_neq.
  unfold POST, authorized, batch. simpl.
  unfold Try.catch, Try.bind, Try.lift, Try.ret. simpl.
  rewrite E. simpl. unfold Try.bind, Try.ret.
  rewrite (process_fruit_valid _ _ _ _ _ n p) by (reflexivity || assumption).
  reflexivity.
Qed.

(** X12. Upsert.  Two elements of one session whose names differ only in
    case or in the length of their runs of white space derive one id: the
    second POST adds no entry, and the entry under that id then has the
    name, the price and the times of the second. *)
Theorem same_name_upserts
    (t1 t1' t2 t2' : Z) (s n1 n2 : string) (p1 p2 : Z) (st : Store) :
  s <> "" -> n1 <> "" -> n2 <> "" ->
  replace_spaces (toLowerCase n1) = replace_spaces (toLowerCase n2) ->
  JsMap.keys
    (snd (POST t2 t2' (authorized (Some (batch s [fruit n2 p2] [])))
            (snd (POST t1 t1' (authorized (Some (batch s [fruit n1 p1] []))) st))))
  = JsMap.keys (snd (POST t1 t1' (authorized (Some (batch s [fruit n1 p1] []))) st)) /\
  JsMap.get (fst (batch_entry "normal" " (Normal)" t1 (slice_last 8 s) n1 p1))
    (snd (POST t2 t2' (authorized (Some (batch s [fruit n2 p2] [])))
            (snd (POST t1 t1' (authorized (Some (batch s [fruit n1 p1] []))) st))))
  = Some {| id := fst (batch_entry "normal" " (Normal)" t1 (slice_last 8 s) n1 p1);
            name := JStr (n2 ++ " (Normal)"); price := JNum p2; quantity := JNum 1;
            lastUpdated := t2; createdAt := t2 |}.
Proof.
  intros Hs H1 H2 Hnorm.
  rewrite !single_normal_post by assumption.
  unfold batch_entry. cbn [fst snd]. rewrite <- Hnorm. split.
  - eapply keys_set_present. apply get_set_eq.
  - apply get_set_eq.
Qed.

Lemma same_name_upserts_witness :
  "abcdefgh12345678" <> "" /\ "Kilo Fruit" <> "" /\ "KILO   fruit" <> "" /\
  replace_spaces (toLowerCase "Kilo Fruit") = replace_spaces (toLowerCase "KILO   fruit") /\
  JsMap.keys
    (snd (POST 2000 2001 (authorized (Some (batch "abcdefgh12345678" [fruit "KILO   fruit" 7] [])))
            (snd (POST 1000 1001
                    (authorized (Some (batch "abcdefgh12345678" [fruit "Kilo Fruit" 5] [])))
                    sample_store))))
  = JsMap.keys (snd (POST 1000 1001
                       (authorized (Some (batch "abcdefgh12345678" [fruit "Kilo Fruit" 5] [])))
                       sample_store)).
Proof.
  assert (Hs : "abcdefgh12345678" <> "") by discriminate.
  assert (H1 : "Kilo Fruit" <> "") by discriminate.
  assert (H2 : "KILO   fruit" <> "") by discriminate.
  split; [exact Hs|]. split; [exact H1|]. split; [exact H2|]. split; [reflexivity|].
  exact (proj1 (same_name_upserts 1000 1001 2000 2001 "abcdefgh12345678"
                  "Kilo Fruit" "KILO   fruit" 5 7 sample_store Hs H1 H2 eq_refl)).
Defined.

Lemma toLowerCase_idempotent_unit (c : ascii) : lower_unit (lower_unit c) = lower_unit c.
Proof. destruct c as [[] [] [] [] [] [] [] []]; reflexivity. Qed.

(** X13. The part of a derived id that comes from the name holds no white
    space, and deriving it again from itself changes nothing: lowering and
    dashing a name is idempotent. *)
Theorem derived_name_is_normal (n : string) :
  no_space (replace_spaces (toLowerCase n)) = true /\
  toLowerCase (toLowerCase n) = toLowerCase n /\
  (forall s, no_space s = true -> replace_spaces s = s) /\
  replace_spaces (replace_spaces (toLowerCase n)) = replace_spaces (toLowerCase n).
Proof.
  assert (Hfix : forall s, no_space s = true -> replace_spaces s = s).
  { unfold no_space. induction s as [|c s IH]; [reflexivity|].
    cbn [list_ascii_of_string forallb replace_spaces]. intros H.
    apply andb_true_iff in H. destruct H as [Hc Hs].
    apply negb_true_iff in Hc. rewrite Hc. f_equal. now apply IH. }
  split; [apply replace_spaces_no_space|]. split; [|split; [exact Hfix|]].
  - induction n as [|c n IH]; simpl; [reflexivity|].
    now rewrite toLowerCase_idempotent_unit, IH.
  - apply Hfix. apply replace_spaces_no_space.
Qed.

Lemma derived_name_is_normal_witness :
  no_space "kilo-fruit" = true /\
  replace_spaces "kilo-fruit" = "kilo-fruit" /\
  replace_spaces (toLowerCase "Kilo  Fruit") = "kilo-fruit".
Proof.
  destruct (derived_name_is_normal "Kilo  Fruit") as (_ & _ & Hfix & _).
  split; [reflexivity|]. split; [exact (Hfix "kilo-fruit" eq_refl) | reflexivity].
Defined.

(** ** Sweeps, reads and the clock *)

(** X14. Sweeps compose: on a map, a sweep after an earlier sweep leaves
    what the later sweep alone leaves, and a sweep repeated at the same time
    removes nothing more. *)
Theorem sweeps_compose (now1 now2 : Z) (st : Store) :
  JsMap.wf st = true ->
  now1 <= now2 ->
  cleanupExpiredData now2 (cleanupExpiredData now1 st) = cleanupExpiredData now2 st /\
  cleanupExpiredData now1 (cleanupExpiredData now1 st) = cleanupExpiredData now1 st.
Proof.
  intros Hwf Hle.
  assert (H : forall a b, a <= b ->
              cleanupExpiredData b (cleanupExpiredData a st) = cleanupExpiredData b st).
  { intros a b Hab.
    rewrite (cleanup_filter b (cleanupExpiredData a st)) by now apply wf_cleanup.
    rewrite (cleanup_filter a st), (cleanup_filter b st) by exact Hwf.
    rewrite filter_filter. apply filter_ext. intros kv.
    destruct (expired b (snd kv)) eqn:Eb; [apply andb_false_r|].
    rewrite andb_true_r. apply negb_true_iff.
    apply not_expired_spec in Eb. apply not_expired_spec. lia. }
  split; [now apply H | apply H; lia].
Qed.

Lemma sweeps_compose_witness :
  JsMap.wf sample_store = true /\ 650000 <= 700000 /\
  cleanupExpiredData 700000 (cleanupExpiredData 650000 sample_store)
  = cleanupExpiredData 700000 sample_store.
Proof.
  assert (Hle : 650000 <= 700000) by (vm_compute; discriminate).
  split; [reflexivity|]. split; [exact Hle|].
  exact (proj1 (sweeps_compose 650000 700000 sample_store eq_refl Hle)).
Defined.

(** X15. A keep-alive buys exactly the expiry: after an authorised PATCH of
    a present entry at time [t], a sweep at any time up to
    [t + DATA_EXPIRY], that instant included, keeps the entry, and a sweep
    at any later time removes it. *)
Theorem patch_keeps_alive_for_expiry
    (t now : Z) (request : Request) (body : JsValue) (k : string) (d : StockData)
    (st : Store) :
  JsMap.wf st = true ->
  authorize request "PATCH" = None ->
  json_body request = Some body ->
  get_prop body "id" = Some (JStr k) ->
  k <> "" ->
  JsMap.get k st = Some d ->
  (now <= t + DATA_EXPIRY ->
   JsMap.get k (cleanupExpiredData now (snd (PATCH t request st))) = Some (touched t d)) /\
  (now > t + DATA_EXPIRY ->
   JsMap.get k (cleanupExpiredData now (snd (PATCH t request st))) = None).
Proof.
  intros Hwf Hauth Hbody Hid Hne Hget.
  rewrite (PATCH_by_value t request body (JStr k) st Hauth Hbody Hid (truthy_JStr k Hne)).
  simpl. rewrite Hget. simpl.
  rewrite cleanup_filter, get_filter, get_set_eq by now apply wf_set.
  cbn [snd]. split; intros Hnow.
  - replace (expired now (touched t d)) with false; [reflexivity|].
    symmetry. apply not_expired_spec. simpl. lia.
  - replace (expired now (touched t d)) with true; [reflexivity|].
    symmetry. apply expired_spec. simpl. lia.
Qed.

Lemma patch_keeps_alive_for_expiry_witness :
  JsMap.wf sample_store = true /\
  authorize banana_ping "PATCH" = None /\
  1150000 <= 550000 + DATA_EXPIRY /\
  option_map lastUpdated
    (JsMap.get "mirage-banana-12345678"
       (cleanupExpiredData 1150000 (snd (PATCH 550000 banana_ping sample_store))))
  = Some 550000.
Proof.
  assert (Hne : "mirage-banana-12345678" <> "") by discriminate.
  assert (Hle : 1150000 <= 550000 + DATA_EXPIRY) by (vm_compute; discriminate).
  destruct (patch_keeps_alive_for_expiry 550000 1150000 banana_ping
              (JObj [("id", JStr "mirage-banana-12345678")]) "mirage-banana-12345678"
              (snd (sample_entry "mirage-banana-12345678" "Banana (Mirage)" 200 500000 0))
              sample_store eq_refl eq_refl eq_refl eq_refl Hne eq_refl) as (Hkeep & _).
  split; [reflexivity|]. split; [reflexivity|]. split; [exact Hle|].
  now rewrite (Hkeep Hle).
Defined.

(** X16. An authorised GET loses nothing that is live: on a map, the list
    it answers holds every entry that has not expired, once and in
    insertion order, and a GET for the id of such an entry answers with that
    entry. *)
Theorem get_returns_every_live_entry (now t : Z) (request : Request) (st : Store) :
  JsMap.wf st = true ->
  authorize request "GET" = None ->
  (no_id request = true ->
   status (fst (GET now t request st)) = 200 /\
   response_entries (fst (GET now t request st))
   = JsMap.values (filter (fun kv => negb (expired now (snd kv))) st)) /\
  (forall k d, query_id request = Some k -> k <> "" ->
               JsMap.get k st = Some d ->
               now - lastUpdated d <= DATA_EXPIRY ->
               status (fst (GET now t request st)) = 200 /\
               response_entries (fst (GET now t request st)) = [d]).
Proof.
  intros Hwf Hauth. unfold GET. rewrite Hauth, (cleanup_filter now st Hwf). split.
  - intros Hno. unfold no_id in Hno.
    destruct (query_id request) as [k|]; [rewrite Hno|]; split; reflexivity.
  - intros k d Hq Hne Hget Hlive. rewrite Hq.
    assert (Hk : (k =? "")%string = false) by now apply String.eqb_neq.
    rewrite Hk, get_filter, Hget by exact Hwf. cbn [snd].
    apply not_expired_spec in Hlive. rewrite Hlive. split; reflexivity.
Qed.

Lemma get_returns_every_live_entry_witness :
  JsMap.wf sample_store = true /\
  authorize (public_get None) "GET" = None /\
  response_entries (fst (GET 700000 700001 (public_get None) sample_store))
  = [ snd (sample_entry "mirage-banana-12345678" "Banana (Mirage)" 200 500000 0);
      snd (sample_entry "normal-kilo-87654321" "Kilo (Normal)" 5 650000 650000) ].
Proof.
  destruct (get_returns_every_live_entry 700000 700001 (public_get None) sample_store
              eq_refl eq_refl) as (Hall & _).
  split; [reflexivity|]. split; [reflexivity|].
  destruct (Hall eq_refl) as (_ & H). rewrite H. reflexivity.
Defined.

(** *** Time stamps *)

Lemma In_set (k : string) (d : StockData) (st : Store) (kv : string * StockData) :
  In kv (JsMap.set k d st) -> kv = (k, d) \/ In kv st.
Proof.
  induction st as [|[k' d'] st IH]; simpl.
  - intros [<-|[]]. now left.
  - destruct (k' =? k)%string; simpl.
    + intros [<-|H]; [now left | right; now right].
    + intros [<-|H]; [right; now left|].
      destruct (IH H) as [->|H']; [now left | right; now right].
Qed.

Lemma stamped_later (T T' : Z) (st : Store) :
  T <= T' -> stamped T st -> stamped T' st.
Proof. intros Hle H kv Hin. destruct (H kv Hin). split; lia. Qed.

Lemma stamped_subset (T : Z) (st st' : Store) :
  (forall kv, In kv st' -> In kv st) -> stamped T st -> stamped T st'.
Proof. intros Hsub H kv Hin. apply H. now apply Hsub. Qed.

Lemma stamped_set (T t : Z) (k : string) (d : StockData) (st : Store) :
  stamped T st -> T <= t -> createdAt d <= t -> lastUpdated d = t ->
  stamped t (JsMap.set k d st).
Proof.
  intros H Hle Hc Hl kv Hin. apply In_set in Hin. destruct Hin as [->|Hin].
  - simpl. lia.
  - destruct (H kv Hin). split; lia.
Qed.

Lemma POST_old_or_written (t1 t2 : Z) (request : Request) (st : Store) :
  old_or_written t1 t2 st (snd (POST t1 t2 request st)).
Proof.
  apply respects_POST.
  - intros s kv H. now left.
  - intros a b c Hab Hbc kv Hin.
    destruct (Hbc kv Hin) as [Hb|Hw]; [now apply Hab | now right].
  - intros t k d Ht _ Hc Hl s kv Hin. unfold Try.set in Hin. simpl in Hin.
    apply In_set in Hin. destruct Hin as [->|Hin]; [|now left].
    right. simpl. split; [congruence|]. destruct Ht; subst; auto.
Qed.

(** One event, its readings of the clock not before [T]. *)
Lemma stamped_step (T : Z) (st : Store) (ev : Event) :
  stamped T st ->
  nondecreasing_from T (readings ev) = true ->
  stamped (fold_left (fun _ x => x) (readings ev) T) (step st ev).
Proof.
  intros Hst Hclock.
  assert (Hsweep : forall now, forall kv, In kv (cleanupExpiredData now st) -> In kv st).
  { intros now kv Hin. now apply cleanup_In in Hin. }
  destruct ev as [now t r|t1 t2 r|t r|r|t r|now]; simpl in *.
  - apply andb_true_iff in Hclock. destruct Hclock as [H1 H2].
    apply andb_true_iff in H2. destruct H2 as [H2 _].
    apply Z.leb_le in H1. apply Z.leb_le in H2.
    apply (stamped_later T t); [lia|].
    destruct (GET_store now t r st) as [->| ->];
      [exact Hst | eapply stamped_subset; [apply Hsweep | exact Hst]].
  - apply andb_true_iff in Hclock. destruct Hclock as [H1 H2].
    apply andb_true_iff in H2. destruct H2 as [H2 _].
    apply Z.leb_le in H1. apply Z.leb_le in H2.
    intros kv Hin. destruct (POST_old_or_written t1 t2 r st kv Hin) as [Hold|[Hc Hw]].
    + destruct (Hst kv Hold). split; lia.
    + split; [lia|]. destruct Hw; lia.
  - apply andb_true_iff in Hclock. destruct Hclock as [H1 _]. apply Z.leb_le in H1.
    destruct (PUT_store t r st) as [->|(k & old & new & Hold & -> & _ & Hc & Hl)].
    + now apply (stamped_later T t).
    + apply get_In in Hold. destruct (Hst _ Hold) as [Ha Hb]. simpl in *.
      apply (stamped_set T t); [exact Hst | exact H1 | lia | exact Hl].
  - eapply stamped_subset; [|exact Hst].
    intros kv. apply (respects_DELETE (fun s s' => In kv s' -> In kv s)); auto.
    intros k s Hin. unfold Try.delete, JsMap.delete in Hin. simpl in Hin.
    now apply filter_In in Hin.
  - apply andb_true_iff in Hclock. destruct Hclock as [H1 _]. apply Z.leb_le in H1.
    destruct (PATCH_store t r st) as [->|(k & old & Hold & ->)].
    + now apply (stamped_later T t).
    + apply get_In in Hold. destruct (Hst _ Hold) as [Ha Hb]. simpl in *.
      apply (stamped_set T t); [exact Hst | exact H1 | simpl; lia | reflexivity].
  - apply andb_true_iff in Hclock. destruct Hclock as [H1 _]. apply Z.leb_le in H1.
    apply (stamped_later T now); [lia|].
    eapply stamped_subset; [apply Hsweep | exact Hst].
Qed.

Lemma nondecreasing_app (T : Z) (l1 l2 : list Z) :
  nondecreasing_from T (l1 ++ l2)%list = true ->
  nondecreasing_from T l1 = true /\
  nondecreasing_from (fold_left (fun _ x => x) l1 T) l2 = true.
Proof.
  revert T. induction l1 as [|a l1 IH]; intros T H; simpl in *.
  - now split.
  - apply andb_true_iff in H. destruct H as [Ha Hrest].
    destruct (IH a Hrest) as [H1 H2]. rewrite Ha, H1. split; [reflexivity | exact H2].
Qed.

Lemma stamped_run (evs : list Event) (T : Z) (st : Store) :
  stamped T st ->
  clock_ordered T evs = true ->
  exists T', stamped T' (run evs st).
Proof.
  revert T st. induction evs as [|ev evs IH]; intros T st Hst Hclock; simpl.
  - now exists T.
  - unfold clock_ordered in Hclock. simpl in Hclock.
    apply nondecreasing_app in Hclock. destruct Hclock as [H1 H2].
    apply (IH (fold_left (fun _ x => x) (readings ev) T));
      [now apply stamped_step | exact H2].
Qed.

(** X17. While the clock does not go back, no entry of a store reached
    from the empty one was last updated before it was created. *)
Theorem lastUpdated_not_before_createdAt
    (T : Z) (evs : list Event) (k : string) (d : StockData) :
  clock_ordered T evs = true ->
  JsMap.get k (run evs JsMap.empty) = Some d ->
  createdAt d <= lastUpdated d.
Proof.
  intros Hclock Hget.
  destruct (stamped_run evs T JsMap.empty) as [T' H].
  - intros kv [].
  - exact Hclock.
  - apply get_In in Hget. now destruct (H _ Hget).
Qed.

Lemma lastUpdated_not_before_createdAt_witness :
  clock_ordered 0 ordered_trace = true /\
  JsMap.get "normal-apple-12345678" (run ordered_trace JsMap.empty)
  = Some (touched 2000 (snd (batch_entry "normal" " (Normal)" 1000 "12345678" "Apple" 100))) /\
  1000 <= 2000.
Proof.
  split; [reflexivity|]. split; [reflexivity|].
  exact (lastUpdated_not_before_createdAt 0 ordered_trace "normal-apple-12345678"
           (touched 2000 (snd (batch_entry "normal" " (Normal)" 1000 "12345678" "Apple" 100)))
           eq_refl eq_refl).
Defined.

(** * The viewer page *)

(** X18. [formatTimeAgo] shows whole seconds for an age under a minute (a
    time stamp ahead of the viewer's clock gives a negative number of
    seconds), whole minutes for an age under an hour, and whole hours for
    any greater age, each rounded down from the age in milliseconds. *)
Theorem formatTimeAgo_units (now timestamp : Z) :
  (now - timestamp < 60000 ->
   formatTimeAgo now timestamp = num_to_string ((now - timestamp) / 1000) ++ "s ago") /\
  (60000 <= now - timestamp < 3600000 ->
   formatTimeAgo now timestamp = num_to_string ((now - timestamp) / 60000) ++ "m ago") /\
  (3600000 <= now - timestamp ->
   formatTimeAgo now timestamp = num_to_string ((now - timestamp) / 3600000) ++ "h ago").
Proof.
  unfold formatTimeAgo. set (age := now - timestamp).
  assert (Hm : age / 1000 / 60 = age / 60000)
    by (rewrite Z.div_div by lia; reflexivity).
  assert (Hh : age / 1000 / 60 / 60 = age / 3600000)
    by (rewrite !Z.div_div by lia; reflexivity).
  repeat split.
  - intros H. assert (age / 1000 < 60) by (apply Z.div_lt_upper_bound; lia).
    destruct (Z.ltb_spec (age / 1000) 60); [reflexivity | lia].
  - intros [H1 H2].
    assert (60 <= age / 1000) by (apply Z.div_le_lower_bound; lia).
    assert (age / 60000 < 60) by (apply Z.div_lt_upper_bound; lia).
    destruct (Z.ltb_spec (age / 1000) 60); [lia|]. rewrite Hm.
    destruct (Z.ltb_spec (age / 60000) 60); [reflexivity | lia].
  - intros H.
    assert (60 <= age / 1000) by (apply Z.div_le_lower_bound; lia).
    assert (60 <= age / 60000) by (apply Z.div_le_lower_bound; lia).
    destruct (Z.ltb_spec (age / 1000) 60); [lia|]. rewrite Hh, Hm.
    destruct (Z.ltb_spec (age / 60000) 60); [lia | reflexivity].
Qed.

Lemma formatTimeAgo_units_witness :
  60000 <= 700000 - 500000 < 3600000 /\
  formatTimeAgo 700000 500000 = "3m ago" /\
  formatTimeAgo 500000 700000 = "-200s ago".
Proof.
  assert (H : 60000 <= 700000 - 500000 < 3600000) by lia.
  assert (H' : 500000 - 700000 < 60000) by lia.
  destruct (formatTimeAgo_units 700000 500000) as (_ & Hm & _).
  destruct (formatTimeAgo_units 500000 700000) as (Hs & _).
  split; [exact H|]. split; [rewrite (Hm H) | rewrite (Hs H')]; reflexivity.
Defined.

(** ** The two lists *)

Lemma includes_append_r (a b sub : string) :
  includes b sub = true -> includes (a ++ b) sub = true.
Proof.
  intros H. induction a as [|c a IH]; simpl; [exact H|].
  rewrite IH. apply orb_true_r.
Qed.

Lemma includes_cons (c : ascii) (s sub : string) :
  includes (String c s) sub = prefix sub (String c s) || includes s sub.
Proof. reflexivity. Qed.

Ltac match_unit r :=
  cbn [prefix append];
  match goal with
  | |- context [ascii_dec ?a ?b] => destruct (ascii_dec a b) as [<-|]; [|easy]
  end;
  destruct r as [|? r]; [vm_compute; easy|].

(** An occurrence of a variant that begins inside [r] and runs into the
    variant appended to it lies in [r]: the variants begin with a space and
    hold no other. *)
Lemma no_straddle_normal (c : ascii) (r : string) :
  prefix " (Normal)" (String c r ++ " (Normal)") = true ->
  prefix " (Normal)" (String c r) = true.
Proof.
  do 8 match_unit r.
  cbn [prefix append].
  match goal with
  | |- context [ascii_dec ?a ?b] => destruct (ascii_dec a b) as [<-|]; [|easy]
  end.
  intros _. destruct r; vm_compute; reflexivity.
Qed.

Lemma no_straddle_mirage (c : ascii) (r : string) :
  prefix " (Mirage)" (String c r ++ " (Mirage)") = true ->
  prefix " (Mirage)" (String c r) = true.
Proof.
  do 8 match_unit r.
  cbn [prefix append].
  match goal with
  | |- context [ascii_dec ?a ?b] => destruct (ascii_dec a b) as [<-|]; [|easy]
  end.
  intros _. destruct r; vm_compute; reflexivity.
Qed.

Lemma remove_first_appended (variant n : string) :
  (forall c r, prefix variant (String c r ++ variant) = true ->
               prefix variant (String c r) = true) ->
  prefix variant variant = true ->
  drop_units (String.length variant) variant = "" ->
  includes n variant = false ->
  remove_first variant (n ++ variant) = n.
Proof.
  intros Hstraddle Hself Hdrop. induction n as [|c n IH]; intros Hno.
  - simpl. destruct variant; [reflexivity|].
    cbn [remove_first]. rewrite Hself. exact Hdrop.
  - rewrite includes_cons in Hno. apply orb_false_iff in Hno. destruct Hno as [Hp Hn].
    change (String c n ++ variant) with (String c (n ++ variant)).
    cbn [remove_first].
    destruct (prefix variant (String c (n ++ variant))) eqn:E.
    + apply (Hstraddle c n) in E. congruence.
    + f_equal. now apply IH.
Qed.

(** Where every name is a string the filters of the page do not throw
    and keep the entries whose name contains the variant. *)
Lemma filter_by_name_total (sub : string) (stocks : list StockData) :
  (forall d, In d stocks -> has_string_name d = true) ->
  filter_by_name sub stocks = Some (filter (keeps sub) stocks).
Proof.
  induction stocks as [|d stocks IH]; intros H; [reflexivity|].
  cbn [filter_by_name filter]. unfold keeps at 1.
  assert (Hd : has_string_name d = true) by (apply H; now left).
  unfold has_string_name in Hd. destruct (name d) as [| | | |nm| |]; try discriminate Hd.
  cbn [call_includes]. rewrite IH by (intros d' Hin; apply H; now right).
  destruct (includes nm sub); reflexivity.
Qed.

Lemma prefix_before_separator (pat x : string) (c : ascii) (b : string) :
  lacks c pat = true ->
  prefix pat (x ++ String c b) = true -> prefix pat x = true.
Proof.
  revert pat. induction x as [|d x IH]; intros pat Hl H.
  - destruct pat as [|e pat]; [reflexivity|].
    cbn [append prefix] in H. destruct (ascii_dec e c) as [->|]; [|discriminate H].
    unfold lacks in Hl. cbn [list_ascii_of_string forallb] in Hl.
    rewrite Ascii.eqb_refl in Hl. discriminate Hl.
  - destruct pat as [|e pat]; [reflexivity|].
    cbn [append prefix] in H. cbn [prefix].
    destruct (ascii_dec e d); [|discriminate H].
    apply IH; [|exact H].
    unfold lacks in *. cbn [list_ascii_of_string forallb] in Hl.
    apply andb_true_iff in Hl. tauto.
Qed.

(** A pattern without the character [c] is not found across a [c]. *)
Lemma includes_across_separator (pat a : string) (c : ascii) (b : string) :
  lacks c pat = true -> pat <> "" ->
  includes a pat = false -> includes b pat = false ->
  includes (a ++ String c b) pat = false.
Proof.
  intros Hl Hne. induction a as [|d a IH]; intros Ha Hb.
  - cbn [append]. rewrite includes_cons, Hb, orb_false_r.
    destruct (prefix pat (String c b)) eqn:E; [|reflexivity].
    apply (prefix_before_separator pat "" c b Hl) in E.
    destruct pat; [contradiction | discriminate E].
  - rewrite includes_cons in Ha. apply orb_false_iff in Ha. destruct Ha as [Hp Ha].
    change (String d a ++ String c b) with (String d (a ++ String c b)).
    rewrite includes_cons, (IH Ha Hb), orb_false_r.
    destruct (prefix pat (String d (a ++ String c b))) eqn:E; [|reflexivity].
    apply (prefix_before_separator pat (String d a) c b Hl) in E. congruence.
Qed.

(** X19. What a session batch stores is what the page shows.  After an
    authorised POST of a batch with one normal and one mirage element into
    a map whose entries all have strings for names, a fetch made within the
    expiry brings a list on which neither filter throws; the normal list
    holds the entry of the normal element and the mirage list that of the
    mirage element, and the heading of each card is the element's name
    again when that name does not itself contain the variant.  Posted into
    the empty store, with names that hold neither [(Normal)] nor
    [(Mirage)], the two lists are exactly these two entries. *)
Theorem viewer_shows_batch_entries
    (t1 t2 now t' : Z) (s n1 n2 : string) (p1 p2 : Z) (st : Store) :
  JsMap.wf st = true ->
  string_names st = true ->
  s <> "" -> n1 <> "" -> n2 <> "" ->
  now - t1 <= DATA_EXPIRY ->
  exists normal mirage,
    normalFruits
      (fetched_stocks now t'
         (snd (POST t1 t2 (authorized (Some (batch s [fruit n1 p1] [fruit n2 p2]))) st)))
    = Some normal /\
    mirageFruits
      (fetched_stocks now t'
         (snd (POST t1 t2 (authorized (Some (batch s [fruit n1 p1] [fruit n2 p2]))) st)))
    = Some mirage /\
    In (snd (batch_entry "normal" " (Normal)" t1 (slice_last 8 s) n1 p1)) normal /\
    In (snd (batch_entry "mirage" " (Mirage)" t1 (slice_last 8 s) n2 p2)) mirage /\
    (includes n1 " (Normal)" = false ->
     display_name " (Normal)"
       (name (snd (batch_entry "normal" " (Normal)" t1 (slice_last 8 s) n1 p1)))
     = Some n1) /\
    (includes n2 " (Mirage)" = false ->
     display_name " (Mirage)"
       (name (snd (batch_entry "mirage" " (Mirage)" t1 (slice_last 8 s) n2 p2)))
     = Some n2) /\
    (st = [] ->
     includes n1 "(Mirage)" = false -> includes n2 "(Normal)" = false ->
     normal = [snd (batch_entry "normal" " (Normal)" t1 (slice_last 8 s) n1 p1)] /\
     mirage = [snd (batch_entry "mirage" " (Mirage)" t1 (slice_last 8 s) n2 p2)]).
Proof.
  intros Hwf Hnames Hs H1 H2 Hlive.
  destruct (two_fruit_batch_post t1 t2 s n1 n2 p1 p2 st Hs H1 H2) as (_ & ->).
  set (eA := batch_entry "normal" " (Normal)" t1 (slice_last 8 s) n1 p1).
  set (eB := batch_entry "mirage" " (Mirage)" t1 (slice_last 8 s) n2 p2).
  set (st2 := JsMap.set (fst eB) (snd eB) (JsMap.set (fst eA) (snd eA) st)).
  assert (Hwf2 : JsMap.wf st2 = true) by (unfold st2; now do 2 apply wf_set).
  assert (Hkeys : fst eB <> fst eA) by (intro E; cbn in E; discriminate E).
  assert (Hfetch : fetched_stocks now t' st2
                   = JsMap.values (filter (fun kv => negb (expired now (snd kv))) st2)).
  { unfold fetched_stocks, GET. cbn. now rewrite cleanup_filter. }
  assert (HliveA : expired now (snd eA) = false) by (apply not_expired_spec; exact Hlive).
  assert (HliveB : expired now (snd eB) = false) by (apply not_expired_spec; exact Hlive).
  assert (HinA : In (snd eA) (fetched_stocks now t' st2)).
  { rewrite Hfetch. unfold JsMap.values. apply in_map_iff. exists eA.
    split; [reflexivity|]. apply filter_In. split; [|cbv beta; now rewrite HliveA].
    destruct eA as [kA dA] eqn:EA. apply get_In. unfold st2.
    rewrite get_set_ne by exact Hkeys. apply get_set_eq. }
  assert (HinB : In (snd eB) (fetched_stocks now t' st2)).
  { rewrite Hfetch. unfold JsMap.values. apply in_map_iff. exists eB.
    split; [reflexivity|]. apply filter_In. split; [|cbv beta; now rewrite HliveB].
    destruct eB as [kB dB] eqn:EB. apply get_In. unfold st2. apply get_set_eq. }
  assert (Hstr : forall d, In d (fetched_stocks now t' st2) -> has_string_name d = true).
  { intros d Hin. rewrite Hfetch in Hin. unfold JsMap.values in Hin.
    apply in_map_iff in Hin. destruct Hin as [kv [<- Hin]].
    apply filter_In in Hin. destruct Hin as [Hin _]. unfold st2 in Hin.
    apply In_set in Hin. destruct Hin as [->|Hin]; [reflexivity|].
    apply In_set in Hin. destruct Hin as [->|Hin]; [reflexivity|].
    unfold string_names in Hnames. rewrite forallb_forall in Hnames. now apply Hnames. }
  assert (HkA : keeps "(Normal)" (snd eA) = true).
  { unfold keeps. cbn. now rewrite (includes_append_r n1 " (Normal)" "(Normal)"). }
  assert (HkB : keeps "(Mirage)" (snd eB) = true).
  { unfold keeps. cbn. now rewrite (includes_append_r n2 " (Mirage)" "(Mirage)"). }
  exists (filter (keeps "(Normal)") (fetched_stocks now t' st2)),
         (filter (keeps "(Mirage)") (fetched_stocks now t' st2)).
  split; [now apply filter_by_name_total|].
  split; [now apply filter_by_name_total|].
  split; [apply filter_In; now split|].
  split; [apply filter_In; now split|].
  split; [|split].
  - intros H. cbn. f_equal.
    apply remove_first_appended; [apply no_straddle_normal | reflexivity | reflexivity | exact H].
  - intros H. cbn. f_equal.
    apply remove_first_appended; [apply no_straddle_mirage | reflexivity | reflexivity | exact H].
  - intros -> Hn1 Hn2. rewrite Hfetch. unfold st2.
    assert (E : (fst eA =? fst eB)%string = false)
      by (apply String.eqb_neq; intro E; cbn in E; discriminate E).
    cbn [JsMap.set]. rewrite E. cbn [filter snd]. rewrite HliveA, HliveB.
    cbn [negb JsMap.values map snd filter]. rewrite HkA, HkB.
    assert (HA : keeps "(Mirage)" (snd eA) = false).
    { unfold keeps. cbn.
      rewrite (includes_across_separator "(Mirage)" n1 " " "(Normal)");
        [reflexivity | reflexivity | discriminate | exact Hn1 | reflexivity]. }
    assert (HB : keeps "(Normal)" (snd eB) = false).
    { unfold keeps. cbn.
      rewrite (includes_across_separator "(Normal)" n2 " " "(Mirage)");
        [reflexivity | reflexivity | discriminate | exact Hn2 | reflexivity]. }
    rewrite HA, HB. split; reflexivity.
Qed.

Lemma viewer_shows_batch_entries_witness :
  JsMap.wf sample_store = true /\
  string_names sample_store = true /\
  700500 - 700000 <= DATA_EXPIRY /\
  normalFruits
    (fetched_stocks 700500 700501
       (snd (POST 700000 700001
               (authorized (Some (batch "abcdefgh12345678"
                                        [fruit "Kilo Fruit" 5] [fruit "Dark  Blade" 9])))
               sample_store)))
  = Some [ snd (sample_entry "normal-kilo-87654321" "Kilo (Normal)" 5 650000 650000);
           {| id := "normal-kilo-fruit-12345678"; name := JStr "Kilo Fruit (Normal)";
              price := JNum 5; quantity := JNum 1;
              lastUpdated := 700000; createdAt := 700000 |} ] /\
  display_name " (Normal)" (JStr "Kilo Fruit (Normal)") = Some "Kilo Fruit".
Proof.
  assert (Hs : "abcdefgh12345678" <> "") by discriminate.
  assert (H1 : "Kilo Fruit" <> "") by discriminate.
  assert (H2 : "Dark  Blade" <> "") by discriminate.
  assert (Hlive : 700500 - 700000 <= DATA_EXPIRY) by (vm_compute; discriminate).
  destruct (viewer_shows_batch_entries 700000 700001 700500 700501 "abcdefgh12345678"
              "Kilo Fruit" "Dark  Blade" 5 9 sample_store eq_refl eq_refl Hs H1 H2 Hlive)
    as (normal & mirage & Hn & _ & _ & _ & Hd & _).
  split; [reflexivity|]. split; [reflexivity|]. split; [exact Hlive|].
  split; [reflexivity | exact (Hd eq_refl)].
Defined.

Lemma filter_by_name_throws (sub : string) (stocks : list StockData) (e : StockData) :
  In e stocks -> call_includes (name e) sub = None -> filter_by_name sub stocks = None.
Proof.
  intros Hin He. induction stocks as [|s stocks IH]; [destruct Hin|].
  simpl. destruct Hin as [->|Hin].
  - now rewrite He.
  - destruct (call_includes (name s) sub); [|reflexivity].
    now rewrite (IH Hin).
Qed.

(** X20. PUT stores a name of any type, and the page does not expect one:
    after an authorised PUT that gives a present entry a name that is
    neither a string nor an array (a number, a boolean, an object), every
    fetch made while the entry is live brings a list on which both filters
    of the page throw. *)
Theorem put_name_breaks_the_page
    (t now t' : Z) (request : Request) (body v : JsValue) (k : string) (d : StockData)
    (st : Store) :
  JsMap.wf st = true ->
  authorize request "PUT" = None ->
  json_body request = Some body ->
  get_prop body "id" = Some (JStr k) ->
  k <> "" ->
  JsMap.get k st = Some d ->
  get_prop body "name" = Some v ->
  nullish v = false ->
  (forall sub, call_includes v sub = None) ->
  now - t <= DATA_EXPIRY ->
  normalFruits (fetched_stocks now t' (snd (PUT t request st))) = None /\
  mirageFruits (fetched_stocks now t' (snd (PUT t request st))) = None.
Proof.
  intros Hwf Hauth Hbody Hid Hne Hget Hname Hnn Hinc Hlive.
  rewrite (PUT_by_value t request body (JStr k) st Hauth Hbody Hid (truthy_JStr k Hne)).
  simpl get_by_value. rewrite Hget. cbn [option_map snd].
  assert (Hin : In (merged t body d)
                   (fetched_stocks now t' (JsMap.set k (merged t body d) st))).
  { unfold fetched_stocks, GET. cbn.
    rewrite cleanup_filter by now apply wf_set.
    unfold JsMap.values. apply in_map_iff. exists (k, merged t body d).
    split; [reflexivity|]. apply filter_In. split.
    - apply get_In. apply get_set_eq.
    - apply negb_true_iff. apply not_expired_spec. exact Hlive. }
  assert (Hn : name (merged t body d) = v).
  { unfold merged, field, coalesce. simpl. now rewrite Hname, Hnn. }
  split; eapply filter_by_name_throws; eauto; rewrite Hn; apply Hinc.
Qed.

Lemma put_name_breaks_the_page_witness :
  JsMap.wf sample_store = true /\
  authorize banana_rename "PUT" = None /\
  600000 - 560000 <= DATA_EXPIRY /\
  normalFruits (fetched_stocks 600000 600001 (snd (PUT 560000 banana_rename sample_store)))
  = None.
Proof.
  assert (Hne : "mirage-banana-12345678" <> "") by discriminate.
  assert (Hlive : 600000 - 560000 <= DATA_EXPIRY) by (vm_compute; discriminate).
  destruct (put_name_breaks_the_page 560000 600000 600001 banana_rename
              (JObj [("id", JStr "mirage-banana-12345678"); ("name", JNum 7)]) (JNum 7)
              "mirage-banana-12345678"
              (snd (sample_entry "mirage-banana-12345678" "Banana (Mirage)" 200 500000 0))
              sample_store eq_refl eq_refl eq_refl eq_refl Hne eq_refl eq_refl eq_refl
              (fun _ => eq_refl) Hlive) as (H & _).
  split; [reflexivity|]. split; [reflexivity|]. split; [exact Hlive | exact H].
Defined.

(** * What adds and what removes entries *)

Lemma keys_set_incl (k k' : string) (d : StockData) (st : Store) :
  In k' (JsMap.keys st) -> In k' (JsMap.keys (JsMap.set k d st)).
Proof.
  intros Hin. destruct (JsMap.get k st) as [d0|] eqn:E.
  - now rewrite (keys_set_present k d d0 st E).
  - rewrite (keys_set_absent k d st E). apply in_or_app. now left.
Qed.

(** X21. Only a POST adds an entry, and a POST removes none: after any
    other event on a map every key of the store was a key before, and after
    a POST, also one answered 400 or 500, every key that was in the store
    is still there. *)
Theorem only_post_adds_and_post_never_removes (st : Store) (ev : Event) (k : string) :
  (is_post ev = false -> JsMap.wf st = true ->
   In k (JsMap.keys (step st ev)) -> In k (JsMap.keys st)) /\
  (is_post ev = true ->
   In k (JsMap.keys st) -> In k (JsMap.keys (step st ev))).
Proof.
  split.
  - intros Hev Hwf Hin.
    destruct (JsMap.get k (step st ev)) as [d'|] eqn:Hg.
    + destruct (step_no_post st ev k d' Hev Hwf Hg) as (d & Hd & _).
      apply get_In in Hd. eapply In_keys; eauto.
    + apply get_None_keys in Hg. contradiction.
  - destruct ev as [now t r|t1 t2 r|t r|r|t r|now]; try discriminate. intros _.
    simpl.
    apply (respects_POST (fun s s' => In k (JsMap.keys s) -> In k (JsMap.keys s'))); auto.
    intros t k0 d _ _ _ _ s. unfold Try.set. simpl. apply keys_set_incl.
Qed.

Lemma only_post_adds_and_post_never_removes_witness :
  is_post (EvPOST 1000 1001 null_element_batch) = true /\
  In "normal-kilo-87654321" (JsMap.keys sample_store) /\
  In "normal-kilo-87654321"
     (JsMap.keys (step sample_store (EvPOST 1000 1001 null_element_batch))) /\
  is_post (EvDELETE wipe_request) = false /\
  JsMap.wf sample_store = true.
Proof.
  assert (Hin : In "normal-kilo-87654321" (JsMap.keys sample_store))
    by (right; right; left; reflexivity).
  split; [reflexivity|]. split; [exact Hin|]. split; [|split; reflexivity].
  exact (proj2 (only_post_adds_and_post_never_removes sample_store
                  (EvPOST 1000 1001 null_element_batch) "normal-kilo-87654321")
               eq_refl Hin).
Defined.
